(** * The storefront's cart and basket stores and its payment webhook

    A shallow embedding of [src/store/store.ts] (the cart store), of the
    basket store (its near-duplicate), of the webhook route
    [src/app/(store)/webhook/route.ts] and of the Easter sale banner,
    with the properties the specification states about them.

    Conventions of the embedding:
    - a JavaScript [number] is an IEEE 754 double, with its rounding,
      its infinities and its NaN (section "JavaScript numbers");
    - a JavaScript array is a [list]; [Array.prototype.find], [map] and
      [reduce] are [find], [map] and [fold_left]; [acc.push(x)] on the
      accumulator of a [reduce] is [acc ++ [x]];
    - the zustand store is a state monad over the store's data with the
      two primitives [set] and [get] the source is written with.  The
      [persist] middleware copies the state to local storage after each
      [set] and never alters it; it is left out of the model;
    - the request headers and [process.env] are finite maps from strings
      to strings. *)

From Stdlib Require Import ZArith String List Lia Bool SpecFloat.
From stdpp Require Import gmap strings list.

Local Open Scope string_scope.
Local Open Scope list_scope.
Local Open Scope Z_scope.

(** ** JavaScript numbers *)

(** A [number] is a double: NaN, an infinity, or a finite value.  Every
    finite double is an integer multiple of the smallest positive one,
    2^-1074, and is kept as that integer: [Num u] is the value
    u * 2^-1074.  The two zeros are the one value [Num 0]: the code
    compares numbers with [>] only and never divides, so it cannot tell
    them apart. *)
Inductive number : Type :=
  | NaN
  | Infinity (negative : bool)
  | Num (units : Z).

(** The number 1, and the least magnitude that overflows (2^1024), in
    units of 2^-1074. *)
Definition scale : Z := 2 ^ 1074.
Definition overflow : Z := 2 ^ 2098.

(** The double of an integer, exact for magnitudes up to [2 ^ 53]. *)
Definition int (n : Z) : number := Num (n * scale).

(** The double [m * 2^e], for a significand [m] below [2 ^ 53] in
    magnitude and an exponent [e] from -1074. *)
Definition dyadic (m e : Z) : number := Num (m * 2 ^ (e + 1074)).

(** The literals [0] and [1]. *)
Definition zero : number := int 0.
Definition one : number := int 1.

Arguments scale : simpl never.
Arguments overflow : simpl never.
Arguments int : simpl never.
Arguments dyadic : simpl never.
Arguments zero : simpl never.
Arguments one : simpl never.

(** The finite doubles among the [Num u]: at most 53 significant bits,
    below the overflow threshold. *)
Definition is_double (x : number) : bool :=
  match x with
  | Num u =>
      (Z.abs u mod 2 ^ Z.max 0 (Z.log2 (Z.abs u) - 52) =? 0)
      && (Z.abs u <? overflow)
  | _ => true
  end.

(** [m / 2^d] rounded to the nearest integer, ties to the even one;
    for [0 <= m] and [1 <= d]. *)
Definition round_nearest_even (m d : Z) : Z :=
  let q := m / 2 ^ d in
  let r := m mod 2 ^ d in
  let h := 2 ^ (d - 1) in
  if r <? h then q
  else if h <? r then q + 1
  else if Z.even q then q else q + 1.

(** The magnitude, in units, of the double nearest to [m * 2^-k] units,
    for [0 <= m] and [0 <= k]: the low [d] bits of [m] are rounded
    away, where [d] leaves 53 significant bits and no bit below the
    unit. *)
Definition round_magnitude (m k : Z) : Z :=
  let d := Z.max (Z.log2 m - 52) k in
  if d <=? 0 then m else round_nearest_even m d * 2 ^ (d - k).

(** The double nearest to [m * 2^-k] units; an infinity on overflow. *)
Definition round_scaled (m k : Z) : number :=
  let u := round_magnitude (Z.abs m) k in
  if overflow <=? u then Infinity (m <? 0)
  else Num (if m <? 0 then - u else u).

(** [x + y] *)
Definition js_add (x y : number) : number :=
  match x, y with
  | NaN, _ | _, NaN => NaN
  | Infinity a, Infinity b => if Bool.eqb a b then Infinity a else NaN
  | Infinity a, Num _ => Infinity a
  | Num _, Infinity b => Infinity b
  | Num a, Num b => round_scaled (a + b) 0
  end.

(** [- x] *)
Definition js_neg (x : number) : number :=
  match x with
  | NaN => NaN
  | Infinity a => Infinity (negb a)
  | Num a => Num (- a)
  end.

(** [x - y] *)
Definition js_sub (x y : number) : number := js_add x (js_neg y).

(** [x * y] *)
Definition js_mul (x y : number) : number :=
  match x, y with
  | NaN, _ | _, NaN => NaN
  | Infinity a, Infinity b => Infinity (xorb a b)
  | Infinity a, Num b => if b =? 0 then NaN else Infinity (xorb a (b <? 0))
  | Num a, Infinity b => if a =? 0 then NaN else Infinity (xorb (a <? 0) b)
  | Num a, Num b => round_scaled (a * b) 1074
  end.

(** [x < y], [x > y] and [x <= y]; false when an operand is NaN. *)
Definition js_lt (x y : number) : bool :=
  match x, y with
  | NaN, _ | _, NaN => false
  | Infinity a, Infinity b => a && negb b
  | Infinity a, Num _ => a
  | Num _, Infinity b => negb b
  | Num a, Num b => a <? b
  end.

Definition js_gt (x y : number) : bool := js_lt y x.

Definition js_le (x y : number) : bool :=
  match x, y with
  | NaN, _ | _, NaN => false
  | _, _ => negb (js_lt y x)
  end.

Arguments js_add : simpl never.
Arguments js_neg : simpl never.
Arguments js_sub : simpl never.
Arguments js_mul : simpl never.
Arguments js_lt : simpl never.
Arguments js_gt : simpl never.
Arguments js_le : simpl never.

(** The integer a number stands for, when it is the double of one. *)
Definition to_Z (x : number) : Z :=
  match x with
  | Num u => u / scale
  | _ => 0
  end.

Arguments to_Z : simpl never.

Definition is_int (x : number) : Prop := exists n : Z, x = int n.

(** The number a value of the Standard Library's specification of
    binary64 ([SpecFloat]) stands for. *)
Definition of_spec (f : spec_float) : number :=
  match f with
  | S754_zero _ => Num 0
  | S754_infinity s => Infinity s
  | S754_nan => NaN
  | S754_finite s m e =>
      Num ((if s then -1 else 1) * Z.pos m * 2 ^ (e + 1074))
  end.

(** ** Other JavaScript operators used by the source *)

(** [a === b] on strings. *)
Definition strict_eq (a b : string) : bool := String.eqb a b.

(** [x ?? d]: the default [d] replaces a [null] or [undefined] left operand. *)
Definition nullish (x : option number) (d : number) : number :=
  match x with
  | Some v => v
  | None => d
  end.

(** Truthiness of a value of type [string | null | undefined]: the empty
    string is falsy, like [null] and [undefined]. *)
Definition truthy (x : option string) : bool :=
  match x with
  | Some v => negb (String.eqb v "")
  | None => false
  end.

(** ** Products *)

(** Modelled from the spec: the [Product] type of [@/sanity.types] is not
    among the sources.  The specification gives it a unique identifier
    [_id], an optional numeric [price] and further display attributes the
    store never inspects; the latter are gathered in [display]. *)
Record Product : Type := mkProduct {
  _id : string;
  price : option number;
  display : string
}.

(** ** The zustand store as a state monad *)

Section Zustand.
Context {S : Type}.

Definition Store (A : Type) : Type := S -> A * S.

Definition ret {A} (a : A) : Store A := fun s => (a, s).

Definition bind {A B} (m : Store A) (k : A -> Store B) : Store B :=
  fun s => let (a, s') := m s in k a s'.

(** [get()] returns the current state and leaves it in place. *)
Definition get : Store S := fun s => (s, s).

(** [set(updater)] merges the object [updater state] into the state.
    Both stores have [items] as their only data field and always return
    an object with that field, so the merge is a replacement. *)
Definition set (updater : S -> S) : Store unit := fun s => (tt, updater s).

(** The value an operation returns, and the state it leaves. *)
Definition eval {A} (m : Store A) (s : S) : A := fst (m s).
Definition exec {A} (m : Store A) (s : S) : S := snd (m s).
End Zustand.

Arguments Store : clear implicits.

Notation "'let*' x ':=' m 'in' k" := (bind m (fun x => k))
  (at level 10, x name, m at level 100, k at level 200).

(** ** The cart store, [src/store/store.ts] *)

Module CartStore.

Record CartItem : Type := mkCartItem {
  product : Product;
  quantity : number
}.

Record CartState : Type := mkCartState {
  items : list CartItem
}.

(** [items: []] *)
Definition initial : CartState := {| items := [] |}.

(** The callback [(item) => item.product._id === id] of the [find]
    calls in [addItem] and [getItemCount]. *)
Definition has_id (id : string) (item : CartItem) : bool :=
  strict_eq (_id (product item)) id.

(** [{ ...item, quantity: q }] *)
Definition with_quantity (item : CartItem) (q : number) : CartItem :=
  {| product := product item; quantity := q |}.

(** [addItem], lines 51-67.  A found item is an object, hence truthy. *)
Definition addItem (p : Product) : Store CartState unit :=
  set (fun state =>
    let existingItem := find (has_id (_id p)) (items state) in
    match existingItem with
    | Some _ =>
        {| items :=
             map (fun item =>
                    if strict_eq (_id (product item)) (_id p)
                    then with_quantity item (js_add (quantity item) one)
                    else item)
                 (items state) |}
    | None =>
        {| items := items state ++ [ {| product := p; quantity := one |} ] |}
    end).

(** The reducer of [removeItem], lines 75-84: one step of the [reduce]
    over the items, pushing onto the accumulator. *)
Definition removeItem_step (productId : string)
    (acc : list CartItem) (item : CartItem) : list CartItem :=
  if strict_eq (_id (product item)) productId then
    if js_gt (quantity item) one
    then acc ++ [ with_quantity item (js_sub (quantity item) one) ]
    else acc
  else acc ++ [ item ].

(** [removeItem], lines 73-85. *)
Definition removeItem (productId : string) : Store CartState unit :=
  set (fun state =>
    {| items := fold_left (removeItem_step productId) (items state) [] |}).

(** [clearCart], line 90. *)
Definition clearCart : Store CartState unit :=
  set (fun _ => {| items := [] |}).

(** [getTotalPrice], lines 96-101. *)
Definition getTotalPrice : Store CartState number :=
  let* state := get in
  ret (fold_left
         (fun total item =>
            js_add total
              (js_mul (nullish (price (product item)) zero) (quantity item)))
         (items state) zero).

(** [getItemCount], lines 108-111. *)
Definition getItemCount (productId : string) : Store CartState number :=
  let* state := get in
  let item := find (has_id productId) (items state) in
  ret (match item with
       | Some item => quantity item
       | None => zero
       end).

(** [getGroupedItems], line 117. *)
Definition getGroupedItems : Store CartState (list CartItem) :=
  let* state := get in
  ret (items state).

End CartStore.

(** ** The basket store, [src/unnamed/part_000] *)

Module BasketStore.

Record BasketItem : Type := mkBasketItem {
  product : Product;
  quantity : number
}.

Record BasketState : Type := mkBasketState {
  items : list BasketItem
}.

Definition initial : BasketState := {| items := [] |}.

Definition has_id (id : string) (item : BasketItem) : bool :=
  strict_eq (_id (product item)) id.

Definition with_quantity (item : BasketItem) (q : number) : BasketItem :=
  {| product := product item; quantity := q |}.

(** [addItem], lines 30-46. *)
Definition addItem (p : Product) : Store BasketState unit :=
  set (fun state =>
    let existingItem := find (has_id (_id p)) (items state) in
    match existingItem with
    | Some _ =>
        {| items :=
             map (fun item =>
                    if strict_eq (_id (product item)) (_id p)
                    then with_quantity item (js_add (quantity item) one)
                    else item)
                 (items state) |}
    | None =>
        {| items := items state ++ [ {| product := p; quantity := one |} ] |}
    end).

(** The reducer of [removeItem], lines 51-60. *)
Definition removeItem_step (productId : string)
    (acc : list BasketItem) (item : BasketItem) : list BasketItem :=
  if strict_eq (_id (product item)) productId then
    if js_gt (quantity item) one
    then acc ++ [ with_quantity item (js_sub (quantity item) one) ]
    else acc
  else acc ++ [ item ].

(** [removeItem], lines 49-61. *)
Definition removeItem (productId : string) : Store BasketState unit :=
  set (fun state =>
    {| items := fold_left (removeItem_step productId) (items state) [] |}).

(** [clearBasket], line 64. *)
Definition clearBasket : Store BasketState unit :=
  set (fun _ => {| items := [] |}).

(** [getTotalPrice], lines 67-72. *)
Definition getTotalPrice : Store BasketState number :=
  let* state := get in
  ret (fold_left
         (fun total item =>
            js_add total
              (js_mul (nullish (price (product item)) zero) (quantity item)))
         (items state) zero).

(** [getItemCount], lines 75-78. *)
Definition getItemCount (productId : string) : Store BasketState number :=
  let* state := get in
  let item := find (has_id productId) (items state) in
  ret (match item with
       | Some item => quantity item
       | None => zero
       end).

(** [getGroupedItems], line 81. *)
Definition getGroupedItems : Store BasketState (list BasketItem) :=
  let* state := get in
  ret (items state).

End BasketStore.

(** ** Clients of the two stores *)

(** The operations of the store contract, as a client issues them. *)
Inductive Op : Type :=
  | OpAddItem (p : Product)
  | OpRemoveItem (productId : string)
  | OpClear
  | OpGetTotalPrice
  | OpGetItemCount (productId : string)
  | OpGetGroupedItems.

(** What a client observes of a call.  Items are observed structurally,
    as the pair of their two fields: [CartItem] and [BasketItem] are the
    same structural type in the source. *)
Inductive Obs : Type :=
  | ObsVoid
  | ObsNumber (n : number)
  | ObsItems (l : list (Product * number)).

Definition cart_view (l : list CartStore.CartItem)
  : list (Product * number) :=
  map (fun item => (CartStore.product item, CartStore.quantity item)) l.

Definition basket_view (l : list BasketStore.BasketItem)
  : list (Product * number) :=
  map (fun item => (BasketStore.product item, BasketStore.quantity item)) l.

Definition cart_call (op : Op) : Store CartStore.CartState Obs :=
  match op with
  | OpAddItem p => let* _ := CartStore.addItem p in ret ObsVoid
  | OpRemoveItem id => let* _ := CartStore.removeItem id in ret ObsVoid
  | OpClear => let* _ := CartStore.clearCart in ret ObsVoid
  | OpGetTotalPrice => let* n := CartStore.getTotalPrice in ret (ObsNumber n)
  | OpGetItemCount id =>
      let* n := CartStore.getItemCount id in ret (ObsNumber n)
  | OpGetGroupedItems =>
      let* l := CartStore.getGroupedItems in ret (ObsItems (cart_view l))
  end.

Definition basket_call (op : Op) : Store BasketStore.BasketState Obs :=
  match op with
  | OpAddItem p => let* _ := BasketStore.addItem p in ret ObsVoid
  | OpRemoveItem id => let* _ := BasketStore.removeItem id in ret ObsVoid
  | OpClear => let* _ := BasketStore.clearBasket in ret ObsVoid
  | OpGetTotalPrice =>
      let* n := BasketStore.getTotalPrice in ret (ObsNumber n)
  | OpGetItemCount id =>
      let* n := BasketStore.getItemCount id in ret (ObsNumber n)
  | OpGetGroupedItems =>
      let* l := BasketStore.getGroupedItems in ret (ObsItems (basket_view l))
  end.

(** A client session: the calls in order, collecting what each returns. *)
Fixpoint session {S : Type} (call : Op -> Store S Obs) (ops : list Op)
  : Store S (list Obs) :=
  match ops with
  | [] => ret []
  | op :: ops' =>
      let* o := call op in
      let* os := session call ops' in
      ret (o :: os)
  end.

(** The basket item with the fields of a cart item, and the two stores'
    states in correspondence: the basket holds the cart's entries, field
    for field and in the same order. *)
Definition to_basket (item : CartStore.CartItem) : BasketStore.BasketItem :=
  {| BasketStore.product := CartStore.product item;
     BasketStore.quantity := CartStore.quantity item |}.

Definition same_items (c : CartStore.CartState) (b : BasketStore.BasketState)
  : Prop :=
  BasketStore.items b = map to_basket (CartStore.items c).

(** ** Cart states *)

Section CartStates.
Import CartStore.

Definition ids (l : list CartItem) : list string :=
  map (fun item => _id (product item)) l.

(** The uniqueness invariant of the data model: no two entries share a
    [product._id]. *)
Definition unique_ids (s : CartState) : Prop := NoDup (ids (items s)).

(** Every entry has a quantity of at least 1. *)
Definition positive_quantities (s : CartState) : Prop :=
  Forall (fun item => js_le (int 1) (quantity item) = true) (items s).

(** Every entry has an integer quantity. *)
Definition integer_quantities (s : CartState) : Prop :=
  Forall (fun item => is_int (quantity item)) (items s).

Definition cart_invariant (s : CartState) : Prop :=
  unique_ids s /\ positive_quantities s /\ integer_quantities s.

(** Every quantity is an integer from [lo] to [hi]. *)
Definition quantities_within (lo hi : Z) (l : list CartItem) : Prop :=
  Forall (fun item => exists n, quantity item = int n /\ lo <= n <= hi) l.

(** The states the mutations reach from the empty cart. *)
Inductive reachable : CartState -> Prop :=
  | reach_initial : reachable initial
  | reach_addItem s p :
      reachable s -> reachable (exec (addItem p) s)
  | reach_removeItem s productId :
      reachable s -> reachable (exec (removeItem productId) s)
  | reach_clearCart s :
      reachable s -> reachable (exec clearCart s).

(** The callback of [map] in [addItem], for the identifier [id] of the
    product being added. *)
Definition bump (id : string) (item : CartItem) : CartItem :=
  if strict_eq (_id (product item)) id
  then with_quantity item (js_add (quantity item) one)
  else item.

(** The unit prices the total is computed from, entry by entry. *)
Definition unit_prices (l : list CartItem) : list (option number) :=
  map (fun item => price (product item)) l.

(** The entries of the identifiers other than [id], in their order. *)
Definition others (id : string) (l : list CartItem) : list CartItem :=
  List.filter (fun item => negb (has_id id item)) l.

(** No entry has a negative price; a missing price counts as 0. *)
Definition nonneg_prices (s : CartState) : Prop :=
  Forall (fun item =>
            js_le (int 0) (match price (product item) with
                           | Some x => x
                           | None => int 0
                           end) = true)
         (items s).

(** Every quantity is finite. *)
Definition finite_quantities (s : CartState) : Prop :=
  Forall (fun item => exists u, quantity item = Num u) (items s).


(** *** The total in the words of the specification *)

(** The price of an entry, or 0 when it is missing, as an integer. *)
Definition exact_price (p : Product) : Z :=
  match price p with
  | Some x => to_Z x
  | None => 0
  end.

(** The sum over all entries of [(product.price or 0) * quantity], an
    integer when prices and quantities are integers. *)
Fixpoint sum_over_entries (l : list CartItem) : Z :=
  match l with
  | [] => 0
  | item :: l' =>
      exact_price (product item) * to_Z (quantity item)
      + sum_over_entries l'
  end.

(** The same sum over the magnitudes. *)
Fixpoint sum_of_magnitudes (l : list CartItem) : Z :=
  match l with
  | [] => 0
  | item :: l' =>
      Z.abs (exact_price (product item) * to_Z (quantity item))
      + sum_of_magnitudes l'
  end.

(** Quantities are integers, and so are the prices that are there. *)
Definition integer_entries (l : list CartItem) : Prop :=
  Forall (fun item =>
            is_int (quantity item)
            /\ match price (product item) with
               | Some x => is_int x
               | None => True
               end) l.

(** A cart whose total involves integers of magnitude up to [2 ^ 53]
    only, whatever the order of the entries. *)
Definition safe_total (s : CartState) : Prop :=
  integer_entries (items s) /\ sum_of_magnitudes (items s) <= 2 ^ 53.

(** The products [(product.price or 0) * quantity] added up in sequence
    order onto [acc], each product and each sum rounded to a double. *)
Fixpoint running_total (acc : number) (l : list CartItem) : number :=
  match l with
  | [] => acc
  | item :: l' =>
      running_total
        (js_add acc
           (js_mul (match price (product item) with
                    | Some x => x
                    | None => Num 0
                    end)
                   (quantity item)))
        l'
  end.
End CartStates.

Section BasketStates.
Import BasketStore.

Definition basket_invariant (b : BasketState) : Prop :=
  NoDup (map (fun item => _id (product item)) (items b))
  /\ Forall (fun item => js_le (int 1) (quantity item) = true) (items b)
  /\ Forall (fun item => is_int (quantity item)) (items b).

(** The states the mutations reach from the empty basket. *)
Inductive basket_reachable : BasketState -> Prop :=
  | breach_initial : basket_reachable initial
  | breach_addItem b p :
      basket_reachable b -> basket_reachable (exec (addItem p) b)
  | breach_removeItem b productId :
      basket_reachable b -> basket_reachable (exec (removeItem productId) b)
  | breach_clearBasket b :
      basket_reachable b -> basket_reachable (exec clearBasket b).
End BasketStates.

(** ** The payment webhook, [src/app/(store)/webhook/route.ts] *)

Module Webhook.

(** The incoming request: its body and its headers, keyed by their
    lower-case names as the [Headers] object keeps them. *)
Record NextRequest : Type := mkRequest {
  req_body : string;
  req_headers : gmap string string
}.

(** What the handler runs against: the request and [process.env]. *)
Record World : Type := mkWorld {
  request : NextRequest;
  process_env : gmap string string
}.

(** [NextResponse.json(body, { status })]; the body is a flat JSON
    object of string fields. *)
Record NextResponse : Type := mkResponse {
  json : list (string * string);
  status : Z
}.

(** The interactions of the handler with its surroundings. *)
Inductive Effect : Type :=
  | ReqText
  | Headers
  | ConsoleLog (message : string).

(** A handler reads the world and leaves a trace of its effects. *)
Definition Handler (A : Type) : Type := World -> A * list Effect.

Definition pure {A} (a : A) : Handler A := fun _ => (a, []).

Definition andThen {A B} (m : Handler A) (k : A -> Handler B)
  : Handler B :=
  fun w => let (a, t1) := m w in
           let (b, t2) := k a w in
           (b, t1 ++ t2).

Local Notation "'await' x ':=' m 'in' k" := (andThen m (fun x => k))
  (at level 10, x name, m at level 100, k at level 200).

(** [req.text()] *)
Definition req_text : Handler string :=
  fun w => (req_body (request w), [ReqText]).

(** [headers()] *)
Definition headers : Handler (gmap string string) :=
  fun w => (req_headers (request w), [Headers]).

(** [process.env.NAME] *)
Definition env (name : string) : Handler (option string) :=
  fun w => (process_env w !! name, []).

(** [console.log(message)] *)
Definition console_log (message : string) : Handler unit :=
  fun _ => (tt, [ConsoleLog message]).

(** [NextResponse.json(body, { status })] *)
Definition NextResponse_json (body : list (string * string)) (st : Z)
  : NextResponse :=
  {| json := body; status := st |}.

(** The handler; [None] is the [undefined] a function returns when it
    falls off its end. *)
Definition POST : Handler (option NextResponse) :=
  await body := req_text in
  await headersList := headers in
  let sig := headersList !! "stripe-signature" in
  if negb (truthy sig) then
    pure (Some (NextResponse_json [("error", "No signature")] 400))
  else
    await webhookSecret := env "STRIPE_WEBHOOK_SECRET" in
    if negb (truthy webhookSecret) then
      await _ := console_log "Stripe webhook secret is not set." in
      pure (Some (NextResponse_json
                    [("error", "Stripe webhook secret is not set")] 400))
    else
      pure None.

Definition response (w : World) : option NextResponse := fst (POST w).
Definition trace (w : World) : list Effect := snd (POST w).

(** The two inputs the handler looks at. *)
Definition signature (w : World) : option string :=
  req_headers (request w) !! "stripe-signature".

Definition secret (w : World) : option string :=
  process_env w !! "STRIPE_WEBHOOK_SECRET".

End Webhook.

(** ** The coupon codes, [src/sanity/lib/sales/couponCodes.ts] *)

Module Coupons.

(** [keyof typeof COUPON_CODES] *)
Inductive CouponCode : Type :=
  | EASTER
  | XMAS.

(** [COUPON_CODES.KEY] *)
Definition COUPON_CODES (key : CouponCode) : string :=
  match key with
  | EASTER => "EASTER"
  | XMAS => "XMAS"
  end.

End Coupons.

(** ** The Easter sale banner, [src/unnamed/part_001] *)

(** Truthiness of a value of type [boolean | undefined]. *)
Definition truthy_bool (x : option bool) : bool :=
  match x with
  | Some b => b
  | None => false
  end.

Module SaleBanner.

(** A JSX element tree: literal text, a value in braces, or an element
    with its tag, its [className] and its children. *)
Local Unset Elimination Schemes.
Inductive Node (Value : Type) : Type :=
  | Text (s : string)
  | Expr (v : Value)
  | Element (tag className : string) (children : list (Node Value)).
Local Set Elimination Schemes.

Arguments Text {Value} s.
Arguments Expr {Value} v.
Arguments Element {Value} tag className children.

(** What the component gives back: [null], an element, or the
    [TypeError] of reading a property of [null]. *)
Inductive Rendered (Value : Type) : Type :=
  | Null
  | Jsx (n : Node Value)
  | TypeError.

Arguments Null {Value}.
Arguments Jsx {Value} n.
Arguments TypeError {Value}.

(** The values in braces of a tree, in document order. *)
Fixpoint exprs {Value} (n : Node Value) : list Value :=
  match n with
  | Text _ => []
  | Expr v => [v]
  | Element _ _ children => flat_map exprs children
  end.

(** The literal texts of a tree, in document order. *)
Fixpoint texts {Value} (n : Node Value) : list string :=
  match n with
  | Text s => [s]
  | Expr _ => []
  | Element _ _ children => flat_map texts children
  end.

Section Banner.
(** The [Sale] documents and the query [getActiveSaleByCouponCode] of
    the content system are not among the sources.  The banner is
    modelled over any type of sales with the five fields it reads:
    [isActive], a boolean that may be missing, and four fields it only
    places in the markup. *)
Context {Sale Value : Type}.
Variable isActive : Sale -> option bool.
Variables title description couponCode discountAmount : Sale -> Value.
Variable getActiveSaleByCouponCode : string -> option Sale.

(** The markup of lines 10-31 for a sale. *)
Definition markup (sale : Sale) : Node Value :=
  Element "div"
    "bg-gradient-to-r from-red-600 to-black px-6 py-10 mx-4 mt-2 rounded-lg shadow-lg text-white"
    [ Element "div" "container mx-auto flex items-center justify-between"
        [ Element "div" "flex-1"
            [ Element "h2" "text-3xl sm:text-3xl font-semibold mb-6"
                [ Expr (title sale) ];
              Element "p" "text-left text-xl sm:text-3xl font-semibold mb-6"
                [ Expr (description sale) ];
              Element "div" "flex"
                [ Element "div"
                    "bg-white text-black py-4 px-6 rounded-full shadow-md transform hover:scale-105 transition duration-300"
                    [ Element "span" "font-bold text-base sm:text-xl"
                        [ Text "Use code ";
                          Element "span" "text-red-500"
                            [ Expr (couponCode sale) ] ];
                      Element "span" "ml-2 font-bold text-base sm:text-xl"
                        [ Text "for ";
                          Expr (discountAmount sale);
                          Text "% OFF" ] ] ] ] ] ].

(** [EasterSaleBanner], lines 4-33.  [sale?.isActive] is [undefined]
    when there is no sale. *)
Definition EasterSaleBanner : Rendered Value :=
  let sale := getActiveSaleByCouponCode (Coupons.COUPON_CODES Coupons.EASTER) in
  let active :=
    match sale with
    | Some sale => isActive sale
    | None => None
    end in
  if negb (truthy_bool active) then Null
  else
    match sale with
    | Some sale => Jsx (markup sale)
    | None => TypeError
    end.
End Banner.

End SaleBanner.

(** ** Sample inputs *)

Definition apple : Product :=
  {| _id := "a"; price := Some (int 10); display := "Apple" |}.

Definition bread : Product :=
  {| _id := "b"; price := Some (int 5); display := "Bread" |}.

(** A product that shares the identifier of [apple] and differs in its
    price and display attributes. *)
Definition apple_repriced : Product :=
  {| _id := "a"; price := Some (int 99); display := "Apple (new)" |}.

(** The cart of the end-to-end scenario of the specification:
    [addItem(a)], [addItem(b)], [addItem(a)] from the empty cart. *)
Definition scenario_items : list CartStore.CartItem :=
  [ {| CartStore.product := apple; CartStore.quantity := int 2 |};
    {| CartStore.product := bread; CartStore.quantity := int 1 |} ].

Definition scenario_cart : CartStore.CartState :=
  {| CartStore.items := scenario_items |}.

(** An item array outside the data model, as a tampered local storage
    could hand it to the store: the identifier ["a"] occurs twice. *)
Definition duplicated_cart : CartStore.CartState :=
  {| CartStore.items :=
       [ {| CartStore.product := apple; CartStore.quantity := int 1 |};
         {| CartStore.product := apple_repriced;
            CartStore.quantity := int 5 |} ] |}.

(** A cart holding an entry of quantity 0, as a tampered local storage
    could hand it to the store. *)
Definition zero_quantity_cart : CartStore.CartState :=
  {| CartStore.items :=
       [ {| CartStore.product := apple; CartStore.quantity := zero |} ] |}.

(** A cart holding 9007199254740992 = 2^53 apples, the first integer
    whose successor is not a double. *)
Definition limit_cart : CartStore.CartState :=
  {| CartStore.items :=
       [ {| CartStore.product := apple;
            CartStore.quantity := int (2 ^ 53) |} ] |}.

(** A cart holding 9007199254740996 = 2^53 + 4 apples; the doubles
    around this quantity are 4 apart. *)
Definition stuck_cart : CartStore.CartState :=
  {| CartStore.items :=
       [ {| CartStore.product := apple;
            CartStore.quantity := int (2 ^ 53 + 4) |} ] |}.

(** A cart holding one and a half apples. *)
Definition half_cart : CartStore.CartState :=
  {| CartStore.items :=
       [ {| CartStore.product := apple;
            CartStore.quantity := dyadic 3 (-1) |} ] |}.

(** A cart holding infinitely many of a product without a price; a
    stored quantity such as [1e999] is read back as [Infinity]. *)
Definition endless_cart : CartStore.CartState :=
  {| CartStore.items :=
       [ {| CartStore.product :=
              {| _id := "e"; price := None; display := "Endless" |};
            CartStore.quantity := Infinity false |} ] |}.

(** One product priced 2^53 and two products priced 1, one of each. *)
Definition costly : Product :=
  {| _id := "c"; price := Some (int (2 ^ 53)); display := "Costly" |}.

Definition penny : Product :=
  {| _id := "p"; price := Some (int 1); display := "Penny" |}.

Definition farthing : Product :=
  {| _id := "q"; price := Some (int 1); display := "Farthing" |}.

Definition costly_cart : CartStore.CartState :=
  {| CartStore.items :=
       [ {| CartStore.product := costly; CartStore.quantity := int 1 |};
         {| CartStore.product := penny; CartStore.quantity := int 1 |};
         {| CartStore.product := farthing; CartStore.quantity := int 1 |} ] |}.

(** Products priced 0.1, 0.2 and 0.3, that is, the doubles nearest to
    these decimals, one of each. *)
Definition decimal_cart : CartStore.CartState :=
  {| CartStore.items :=
       [ {| CartStore.product :=
              {| _id := "x"; price := Some (dyadic 3602879701896397 (-55));
                 display := "0.1" |};
            CartStore.quantity := int 1 |};
         {| CartStore.product :=
              {| _id := "y"; price := Some (dyadic 3602879701896397 (-54));
                 display := "0.2" |};
            CartStore.quantity := int 1 |};
         {| CartStore.product :=
              {| _id := "z"; price := Some (dyadic 5404319552844595 (-54));
                 display := "0.3" |};
            CartStore.quantity := int 1 |} ] |}.

(** A signed request reaching a server without a configured secret. *)
Definition world_without_secret : Webhook.World :=
  {| Webhook.request :=
       {| Webhook.req_body := "{}";
          Webhook.req_headers := {[ "stripe-signature" := "t=1,v1=00" ]} |};
     Webhook.process_env := ∅ |}.

(** A request whose [stripe-signature] header is present with an empty
    value, reaching a server with a configured secret. *)
Definition world_empty_signature : Webhook.World :=
  {| Webhook.request :=
       {| Webhook.req_body := "{}";
          Webhook.req_headers := {[ "stripe-signature" := "" ]} |};
     Webhook.process_env := {[ "STRIPE_WEBHOOK_SECRET" := "whsec_test" ]} |}.

(** A signed request reaching a server with a configured secret. *)
Definition world_signed : Webhook.World :=
  {| Webhook.request :=
       {| Webhook.req_body := "{}";
          Webhook.req_headers := {[ "stripe-signature" := "t=1,v1=00" ]} |};
     Webhook.process_env := {[ "STRIPE_WEBHOOK_SECRET" := "whsec_test" ]} |}.

(** A content system with an active Easter sale and an inactive
    Christmas sale, and the values its fields give in the markup: a
    string or a number. *)
Record SampleSale : Type := mkSampleSale {
  sale_isActive : option bool;
  sale_title : string;
  sale_description : string;
  sale_couponCode : string;
  sale_discountAmount : Z
}.

Inductive SampleValue : Type :=
  | StringValue (s : string)
  | NumberValue (n : Z).

Definition easter_sale : SampleSale :=
  {| sale_isActive := Some true;
     sale_title := "Easter sale";
     sale_description := "Spring offers";
     sale_couponCode := "EASTER";
     sale_discountAmount := 20 |}.

Definition sample_sales (code : string) : option SampleSale :=
  if String.eqb code "EASTER" then Some easter_sale
  else if String.eqb code "XMAS"
       then Some {| sale_isActive := Some false;
                    sale_title := "Christmas sale";
                    sale_description := "Winter offers";
                    sale_couponCode := "XMAS";
                    sale_discountAmount := 10 |}
       else None.

(** The same content system without its Christmas sale. *)
Definition easter_only (code : string) : option SampleSale :=
  if String.eqb code "EASTER" then Some easter_sale else None.

(** The banner over the sample content system. *)
Definition sample_banner (lookup : string -> option SampleSale)
  : SaleBanner.Rendered SampleValue :=
  SaleBanner.EasterSaleBanner sale_isActive
    (fun sale => StringValue (sale_title sale))
    (fun sale => StringValue (sale_description sale))
    (fun sale => StringValue (sale_couponCode sale))
    (fun sale => NumberValue (sale_discountAmount sale))
    lookup.

(** * Properties *)

(** ** Arithmetic on the doubles of integers *)

Lemma scale_pos : 0 < scale.
Proof. by vm_compute. Qed.

Lemma limit_below_overflow : 2 ^ 53 * scale < overflow.
Proof. by vm_compute. Qed.

Lemma to_Z_int (n : Z) : to_Z (int n) = n.
Proof.
  unfold to_Z, int. apply Z.div_mul. pose proof scale_pos. lia.
Qed.

Lemma int_inj (a b : Z) : int a = int b -> a = b.
Proof. intros H. by rewrite <- (to_Z_int a), H, to_Z_int. Qed.

(** Nothing is rounded away from a magnitude whose low bits, those
    beyond its 53 leading ones, are zero. *)
Lemma round_magnitude_exact (u k : Z) :
  0 < u -> 0 <= k ->
  (2 ^ Z.max 0 (Z.log2 u - 52) | u) ->
  round_magnitude (u * 2 ^ k) k = u.
Proof.
  intros Hu Hk [c Hc]. unfold round_magnitude.
  rewrite Z.log2_mul_pow2 by lia.
  set (e := Z.max 0 (Z.log2 u - 52)) in *.
  assert (He : 0 <= e) by lia.
  replace (Z.max (k + Z.log2 u - 52) k) with (k + e) by lia.
  destruct (Z.leb_spec (k + e) 0) as [Hd|Hd].
  - assert (k = 0) as -> by lia. rewrite Z.pow_0_r. lia.
  - assert (Hsplit : u * 2 ^ k = c * 2 ^ (k + e)).
    { rewrite Z.pow_add_r by lia. rewrite Hc. ring. }
    unfold round_nearest_even. rewrite Hsplit.
    assert (Hpow : 0 < 2 ^ (k + e)) by (apply Z.pow_pos_nonneg; lia).
    rewrite Z.div_mul, Z.mod_mul by lia.
    assert (Hhalf : 0 < 2 ^ (k + e - 1)) by (apply Z.pow_pos_nonneg; lia).
    assert ((0 <? 2 ^ (k + e - 1)) = true) as -> by lia.
    replace (k + e - k) with e by lia. lia.
Qed.

(** The doubles of the integers up to [2 ^ 53] have no such low bits. *)
Lemma int_low_bits (n : Z) :
  0 < n <= 2 ^ 53 ->
  (2 ^ Z.max 0 (Z.log2 (n * scale) - 52) | n * scale).
Proof.
  intros Hn. unfold scale. rewrite Z.log2_mul_pow2 by lia.
  destruct (Z.eq_dec n (2 ^ 53)) as [->|Hne].
  - exists (2 ^ 52). by vm_compute.
  - assert (Hlog : Z.log2 n < 53) by (apply Z.log2_lt_pow2; lia).
    pose proof (Z.log2_nonneg n) as Hlog0.
    replace (Z.max 0 (1074 + Z.log2 n - 52)) with (1022 + Z.log2 n) by lia.
    exists (n * 2 ^ (52 - Z.log2 n)).
    rewrite <- Z.mul_assoc, <- Z.pow_add_r by lia.
    do 2 f_equal. lia.
Qed.

Lemma round_magnitude_int (n k : Z) :
  0 <= n <= 2 ^ 53 -> 0 <= k ->
  round_magnitude (n * scale * 2 ^ k) k = n * scale.
Proof.
  intros Hn Hk. destruct (Z.eq_dec n 0) as [->|Hne].
  - simpl. unfold round_magnitude, round_nearest_even. simpl Z.log2.
    replace (Z.max (0 - 52) k) with k by lia.
    destruct (Z.leb_spec k 0); [done|].
    rewrite Z.div_0_l, Z.mod_0_l
      by (apply Z.pow_nonzero; lia).
    assert (0 < 2 ^ (k - 1)) by (apply Z.pow_pos_nonneg; lia).
    assert ((0 <? 2 ^ (k - 1)) = true) as -> by lia. done.
  - apply round_magnitude_exact; [|done|apply int_low_bits; lia].
    pose proof scale_pos. nia.
Qed.

Lemma round_scaled_int (n k : Z) :
  - 2 ^ 53 <= n <= 2 ^ 53 -> 0 <= k ->
  round_scaled (n * scale * 2 ^ k) k = int n.
Proof.
  intros Hn Hk. unfold round_scaled, int.
  pose proof scale_pos as Hs.
  assert (Hp : 0 < 2 ^ k) by (apply Z.pow_pos_nonneg; lia).
  assert (Habs : Z.abs (n * scale * 2 ^ k) = Z.abs n * scale * 2 ^ k).
  { rewrite !Z.abs_mul, (Z.abs_eq scale), (Z.abs_eq (2 ^ k)); lia. }
  rewrite Habs, round_magnitude_int by lia.
  pose proof limit_below_overflow as Hlim.
  assert (Z.abs n * scale <= 2 ^ 53 * scale)
    by (apply Z.mul_le_mono_nonneg_r; lia).
  assert ((overflow <=? Z.abs n * scale) = false) as -> by lia.
  destruct (Z.ltb_spec (n * scale * 2 ^ k) 0) as [Hneg|Hpos].
  - assert (n < 0) by nia. f_equal. rewrite Z.abs_neq by lia. ring.
  - assert (0 <= n) by nia. f_equal. rewrite Z.abs_eq by lia. ring.
Qed.

(** Sums, differences and products of integers are exact as long as
    the result has a magnitude of [2 ^ 53] at most. *)
Lemma js_add_int (a b : Z) :
  - 2 ^ 53 <= a + b <= 2 ^ 53 -> js_add (int a) (int b) = int (a + b).
Proof.
  intros H. unfold js_add, int.
  replace (a * scale + b * scale) with ((a + b) * scale * 2 ^ 0) by ring.
  by rewrite round_scaled_int.
Qed.

Lemma js_sub_int (a b : Z) :
  - 2 ^ 53 <= a - b <= 2 ^ 53 -> js_sub (int a) (int b) = int (a - b).
Proof.
  intros H. unfold js_sub, js_neg, js_add, int.
  replace (a * scale + - (b * scale)) with ((a - b) * scale * 2 ^ 0) by ring.
  by rewrite round_scaled_int.
Qed.

Lemma js_mul_int (a b : Z) :
  - 2 ^ 53 <= a * b <= 2 ^ 53 -> js_mul (int a) (int b) = int (a * b).
Proof.
  intros H. unfold js_mul, int.
  replace (a * scale * (b * scale)) with (a * b * scale * 2 ^ 1074)
    by (unfold scale; ring).
  by rewrite round_scaled_int.
Qed.

Lemma js_lt_int (a b : Z) : js_lt (int a) (int b) = (a <? b).
Proof.
  unfold js_lt, int. pose proof scale_pos.
  destruct (Z.ltb_spec a b), (Z.ltb_spec (a * scale) (b * scale));
    try done; nia.
Qed.

Lemma js_gt_int (a b : Z) : js_gt (int a) (int b) = (b <? a).
Proof. apply js_lt_int. Qed.

Lemma js_le_int (a b : Z) : js_le (int a) (int b) = (a <=? b).
Proof.
  unfold js_le, int. fold (int a). fold (int b).
  rewrite js_lt_int. lia.
Qed.

(** At [2 ^ 53] adding 1 is lost to rounding. *)
Lemma js_add_limit : js_add (int (2 ^ 53)) one = int (2 ^ 53).
Proof. by vm_compute. Qed.

Lemma js_add_one_within (n : Z) :
  1 <= n <= 2 ^ 53 ->
  exists m, js_add (int n) one = int m /\ 1 <= m <= 2 ^ 53.
Proof.
  intros Hn. destruct (Z.eq_dec n (2 ^ 53)) as [->|Hne].
  - exists (2 ^ 53). split; [apply js_add_limit | lia].
  - exists (n + 1). split; [apply js_add_int | ]; lia.
Qed.

(** The numbers that are at least 0: the positive infinity and the
    finite ones of non-negative units. *)
Lemma js_le_zero (x : number) :
  js_le zero x = true <-> x = Infinity false \/ exists u, x = Num u /\ 0 <= u.
Proof.
  unfold js_le, js_lt, zero, int.
  destruct x as [|[]|u]; simpl.
  - split; [done|]. by intros [?|(? & ? & _)].
  - split; [done|]. by intros [?|(? & ? & _)].
  - split; [by left|done].
  - split.
    + intros H. right. exists u. split; [done|lia].
    + intros [?|(u' & [= <-] & Hu)]; [done|lia].
Qed.

Lemma round_magnitude_nonneg (m k : Z) :
  0 <= m -> 0 <= round_magnitude m k.
Proof.
  intros Hm. unfold round_magnitude, round_nearest_even.
  set (d := Z.max (Z.log2 m - 52) k).
  destruct (Z.leb_spec d 0) as [Hd|Hd]; [done|].
  assert (0 < 2 ^ d) by (apply Z.pow_pos_nonneg; lia).
  assert (0 <= m / 2 ^ d) by (apply Z.div_pos; lia).
  assert (0 <= 2 ^ (d - k)) by (apply Z.pow_nonneg; lia).
  destruct (_ <? _); [|destruct (_ <? _); [|destruct (Z.even _)]]; nia.
Qed.

Lemma round_scaled_nonneg (m k : Z) :
  0 <= m -> js_le zero (round_scaled m k) = true.
Proof.
  intros Hm. unfold round_scaled.
  assert ((m <? 0) = false) as -> by lia.
  rewrite Z.abs_eq by done.
  pose proof (round_magnitude_nonneg m k Hm).
  apply js_le_zero.
  destruct (overflow <=? _); [by left|]. right. by eexists.
Qed.

Lemma js_add_nonneg (x y : number) :
  js_le zero x = true -> js_le zero y = true ->
  js_le zero (js_add x y) = true.
Proof.
  rewrite !js_le_zero.
  intros [->|(a & -> & Ha)] [->|(b & -> & Hb)]; unfold js_add; simpl; auto.
  apply js_le_zero, round_scaled_nonneg. lia.
Qed.

Lemma js_mul_nonneg (x : number) (u : Z) :
  js_le zero x = true -> js_le one (Num u) = true ->
  js_le zero (js_mul x (Num u)) = true.
Proof.
  rewrite js_le_zero. intros Hx Hu.
  assert (0 < u).
  { unfold js_le, one, int, js_lt in Hu. pose proof scale_pos. lia. }
  destruct Hx as [->|(a & -> & Ha)]; unfold js_mul.
  - assert ((u =? 0) = false) as -> by lia.
    by assert ((u <? 0) = false) as -> by lia.
  - apply round_scaled_nonneg. nia.
Qed.

(** *** Agreement with the Standard Library's binary64 *)

(** The operations above against [SFadd], [SFsub] and [SFmul] of
    [SpecFloat] at precision 53 and maximal exponent 1024, at inputs
    where rounding, ties, subnormal results and overflow occur:
    0.1 + 0.2 and (0.1 + 0.2) + 0.3; 2^53 + 1; (2^53 + 4) - 1; 1.5 - 1;
    0.1 * 3; the largest double times 3; the smallest double times
    0.5. *)
Example js_arithmetic_agrees_with_binary64 :
  let tenth := S754_finite false 7205759403792794 (-56) in
  let fifth := S754_finite false 7205759403792794 (-55) in
  let three_tenths := S754_finite false 5404319552844595 (-54) in
  let limit := S754_finite false 4503599627370496 1 in
  let stuck := S754_finite false 4503599627370498 1 in
  let unit := S754_finite false 4503599627370496 (-52) in
  let half := S754_finite false 4503599627370496 (-53) in
  let three_halves := S754_finite false 6755399441055744 (-52) in
  let three := S754_finite false 6755399441055744 (-51) in
  let largest := S754_finite false 9007199254740991 971 in
  let smallest := S754_finite false 1 (-1074) in
  let add := SFadd 53 1024 in
  let sub := SFsub 53 1024 in
  let mul := SFmul 53 1024 in
  js_add (of_spec tenth) (of_spec fifth) = of_spec (add tenth fifth)
  /\ js_add (js_add (of_spec tenth) (of_spec fifth)) (of_spec three_tenths)
     = of_spec (add (add tenth fifth) three_tenths)
  /\ js_add (of_spec limit) (of_spec unit) = of_spec (add limit unit)
  /\ js_sub (of_spec stuck) (of_spec unit) = of_spec (sub stuck unit)
  /\ js_sub (of_spec three_halves) (of_spec unit)
     = of_spec (sub three_halves unit)
  /\ js_mul (of_spec tenth) (of_spec three) = of_spec (mul tenth three)
  /\ js_mul (of_spec largest) (of_spec three) = of_spec (mul largest three)
  /\ js_mul (of_spec smallest) (of_spec half) = of_spec (mul smallest half)
  /\ of_spec limit = int (2 ^ 53) /\ of_spec stuck = int (2 ^ 53 + 4)
  /\ of_spec unit = one /\ of_spec three = int 3
  /\ of_spec three_halves = dyadic 3 (-1)
  /\ of_spec tenth = dyadic 3602879701896397 (-55).
Proof. by vm_compute. Qed.
(** ** Strict equality and the list primitives *)

Lemma strict_eq_true (a b : string) : strict_eq a b = true <-> a = b.
Proof. apply String.eqb_eq. Qed.

Lemma strict_eq_false (a b : string) : strict_eq a b = false <-> a <> b.
Proof. apply String.eqb_neq. Qed.

Lemma strict_eq_refl (a : string) : strict_eq a a = true.
Proof. by apply strict_eq_true. Qed.

Lemma lookup_map {A B} (f : A -> B) (l : list A) (i : nat) :
  map f l !! i = f <$> l !! i.
Proof. change (map f l) with (f <$> l). apply list_lookup_fmap. Qed.

Lemma find_snoc {A} (f : A -> bool) (l : list A) (x : A) :
  find f l = None ->
  find f (l ++ [x]) = if f x then Some x else None.
Proof.
  induction l as [|y l IH]; simpl; [done|].
  destruct (f y); [done|]. exact IH.
Qed.

Lemma find_none_app {A} (f : A -> bool) (l k : list A) :
  find f l = None -> find f (l ++ k) = find f k.
Proof.
  induction l as [|y l IH]; simpl; [done|].
  destruct (f y); [done|]. exact IH.
Qed.

Lemma find_map_stable {A} (f : A -> bool) (g : A -> A) (l : list A) :
  (forall x, f (g x) = f x) ->
  find f (map g l) = g <$> find f l.
Proof.
  intros Hfg. induction l as [|y l IH]; simpl; [done|].
  rewrite Hfg. by destruct (f y).
Qed.

(** ** The cart store *)

Section CartFacts.
Import CartStore.

Implicit Types (s : CartState) (l acc : list CartItem) (item : CartItem).
Implicit Types (id : string) (p : Product).

Lemma bump_product id item : product (bump id item) = product item.
Proof. unfold bump. by destruct (strict_eq _ _). Qed.

Lemma bump_has_id id id' item : has_id id' (bump id item) = has_id id' item.
Proof. unfold has_id. by rewrite bump_product. Qed.

Lemma find_absent id l :
  find (has_id id) l = None <->
  (forall item, item ∈ l -> _id (product item) <> id).
Proof.
  induction l as [|x l IH]; simpl.
  - split; [|done]. intros _ item Hin. by apply elem_of_nil in Hin.
  - unfold has_id at 1. destruct (strict_eq _ _) eqn:E.
    + split; [done|]. intros H. apply strict_eq_true in E.
      exfalso. apply (H x); [left | done].
    + apply strict_eq_false in E. rewrite IH. split.
      * intros H item Hin. apply elem_of_cons in Hin as [->|Hin]; auto.
      * intros H item Hin. apply H. by right.
Qed.

Lemma find_absent_ids id l :
  find (has_id id) l = None <-> id ∉ ids l.
Proof.
  rewrite find_absent. unfold ids. split.
  - intros H Hin. apply list_elem_of_In, in_map_iff in Hin.
    destruct Hin as (item & Heq & Hin). apply (H item); [|done].
    by apply list_elem_of_In.
  - intros H item Hin Heq. apply H. apply list_elem_of_In, in_map_iff.
    exists item. split; [done|]. by apply list_elem_of_In.
Qed.

(** The [reduce] of [removeItem] only ever appends to its accumulator. *)
Lemma removeItem_fold_acc id l acc :
  fold_left (removeItem_step id) l acc
  = acc ++ fold_left (removeItem_step id) l [].
Proof.
  revert acc. induction l as [|x l IH]; intros acc; simpl.
  - by rewrite app_nil_r.
  - rewrite IH. rewrite (IH (removeItem_step id [] x)).
    rewrite app_assoc. f_equal.
    unfold removeItem_step.
    destruct (strict_eq _ _); [destruct (js_gt _ _)|]; simpl;
      by rewrite ?app_nil_r.
Qed.

Lemma removeItem_fold_cons id x l :
  fold_left (removeItem_step id) (x :: l) []
  = removeItem_step id [] x ++ fold_left (removeItem_step id) l [].
Proof. simpl. apply removeItem_fold_acc. Qed.

Lemma removeItem_fold_app id l k :
  fold_left (removeItem_step id) (l ++ k) []
  = fold_left (removeItem_step id) l []
    ++ fold_left (removeItem_step id) k [].
Proof. rewrite fold_left_app. apply removeItem_fold_acc. Qed.

Lemma removeItem_fold_absent id l :
  (forall item, item ∈ l -> _id (product item) <> id) ->
  fold_left (removeItem_step id) l [] = l.
Proof.
  induction l as [|x l IH]; intros H; [done|].
  rewrite removeItem_fold_cons. rewrite IH.
  - unfold removeItem_step.
    assert (strict_eq (_id (product x)) id = false) as ->; [|done].
    apply strict_eq_false, H. by left.
  - intros item Hin. apply H. by right.
Qed.

Lemma removeItem_step_nil id item :
  removeItem_step id [] item
  = if has_id id item
    then if js_gt (quantity item) one
         then [ with_quantity item (js_sub (quantity item) one) ]
         else []
    else [ item ].
Proof. reflexivity. Qed.

Lemma has_id_true id item : has_id id item = true <-> _id (product item) = id.
Proof. apply strict_eq_true. Qed.

Lemma has_id_with_quantity id item q :
  has_id id (with_quantity item q) = has_id id item.
Proof. reflexivity. Qed.

(** The [reduce] of [getTotalPrice] is the running total. *)
Lemma total_fold l (a : number) :
  fold_left
    (fun total item =>
       js_add total
         (js_mul (nullish (price (product item)) zero) (quantity item)))
    l a
  = running_total a l.
Proof.
  revert a. induction l as [|x l IH]; intros a; simpl; [done|].
  rewrite IH. by destruct (price (product x)).
Qed.

Lemma getTotalPrice_eval s :
  eval getTotalPrice s = running_total (Num 0) (items s).
Proof.
  unfold eval, getTotalPrice, bind, get, ret. simpl.
  by rewrite total_fold.
Qed.

Lemma integer_entries_cons item l :
  integer_entries (item :: l) ->
  exists q, quantity item = int q
            /\ js_mul (match price (product item) with
                       | Some x => x
                       | None => Num 0
                       end) (int q)
               = js_mul (int (exact_price (product item))) (int q)
            /\ integer_entries l.
Proof.
  intros H. apply Forall_cons in H as [[[q Hq] Hp] Hl].
  exists q. split; [done|]. split; [|done].
  unfold exact_price. destruct (price (product item)) as [x|]; [|done].
  destruct Hp as [n ->]. by rewrite to_Z_int.
Qed.

Lemma sum_of_magnitudes_nonneg l : 0 <= sum_of_magnitudes l.
Proof. induction l as [|x l IH]; simpl; lia. Qed.

(** With integers of small enough magnitude nothing is rounded. *)
Lemma running_total_exact l (a : Z) :
  integer_entries l ->
  Z.abs a + sum_of_magnitudes l <= 2 ^ 53 ->
  running_total (int a) l = int (a + sum_over_entries l).
Proof.
  revert a. induction l as [|x l IH]; intros a Hint Hsum;
    cbn [running_total sum_over_entries sum_of_magnitudes] in *.
  - f_equal. lia.
  - destruct (integer_entries_cons _ _ Hint) as (q & Hq & Hmul & Hl).
    pose proof (sum_of_magnitudes_nonneg l).
    rewrite Hq in *. rewrite to_Z_int in *. rewrite Hmul.
    rewrite js_mul_int by lia. rewrite js_add_int by lia.
    rewrite IH by (done || lia). f_equal. lia.
Qed.
End CartFacts.

Section CartClaims.
Import CartStore.

Implicit Types (s : CartState) (l : list CartItem) (item : CartItem).
Implicit Types (id : string) (p : Product).

Lemma addItem_present s p item :
  find (has_id (_id p)) (items s) = Some item ->
  items (exec (addItem p) s) = map (bump (_id p)) (items s).
Proof. intros H. unfold exec, addItem, set. simpl. by rewrite H. Qed.

Lemma addItem_absent s p :
  find (has_id (_id p)) (items s) = None ->
  items (exec (addItem p) s)
  = items s ++ [ {| product := p; quantity := one |} ].
Proof. intros H. unfold exec, addItem, set. simpl. by rewrite H. Qed.

Lemma getItemCount_find s id :
  eval (getItemCount id) s
  = match find (has_id id) (items s) with
    | Some item => quantity item
    | None => zero
    end.
Proof. reflexivity. Qed.



(** C6. [removeItem(id)] on a cart with no entry of identifier [id]
    leaves the item sequence, and so the whole state, as it was. *)
Theorem removeItem_absent_noop s id :
  (forall item, item ∈ items s -> _id (product item) <> id) ->
  items (exec (removeItem id) s) = items s
  /\ exec (removeItem id) s = s.
Proof.
  intros H. unfold exec, removeItem, set. simpl.
  rewrite (removeItem_fold_absent _ _ H). by destruct s.
Qed.

(** C7. Whatever the cart holds, [clearCart()] followed by
    [getGroupedItems()] returns the empty sequence. *)
Theorem clearCart_then_getGroupedItems s :
  eval getGroupedItems (exec clearCart s) = [].
Proof. reflexivity. Qed.

(** C4, as the code has it.  [getTotalPrice()] does not change the
    state, and returns the products of the price, 0 when it is missing,
    and the quantity, added up from 0 in the order of the entries, each
    product and each sum rounded to a double.  When prices and
    quantities are integers and the magnitudes of the products add up
    to 2^53 at most, nothing is rounded: the result is exactly the sum
    over all entries. *)
Theorem getTotalPrice_sum s :
  exec getTotalPrice s = s
  /\ eval getTotalPrice s = running_total (Num 0) (items s)
  /\ (safe_total s ->
      eval getTotalPrice s = int (sum_over_entries (items s))).
Proof.
  split; [reflexivity|]. split; [apply getTotalPrice_eval|].
  intros [Hint Hsum]. rewrite getTotalPrice_eval.
  change (Num 0) with (int 0).
  rewrite running_total_exact by (done || lia). f_equal.
Qed.

(** C4 fails as stated: for one product priced 2^53 and two priced 1,
    the sum over the entries is the double 2^53 + 2, and
    [getTotalPrice()] returns 2^53. *)
Lemma getTotalPrice_loses_small_prices :
  sum_over_entries (items costly_cart) = 2 ^ 53 + 2
  /\ is_double (int (2 ^ 53 + 2)) = true
  /\ eval getTotalPrice costly_cart = int (2 ^ 53)
  /\ eval getTotalPrice costly_cart
     <> int (sum_over_entries (items costly_cart)).
Proof.
  assert (Hsum : sum_over_entries (items costly_cart) = 2 ^ 53 + 2)
    by (by vm_compute).
  assert (Htotal : eval getTotalPrice costly_cart = int (2 ^ 53))
    by (by vm_compute).
  split; [exact Hsum|]. split; [by vm_compute|]. split; [exact Htotal|].
  rewrite Htotal, Hsum. intros Heq. apply int_inj in Heq. lia.
Qed.
End CartClaims.

Section CartInvariant.
Import CartStore.

Implicit Types (s : CartState) (l : list CartItem) (item : CartItem).
Implicit Types (id : string) (p : Product).

Lemma ids_app l k : ids (l ++ k) = ids l ++ ids k.
Proof. apply map_app. Qed.

Lemma ids_bump id l : ids (map (bump id) l) = ids l.
Proof.
  unfold ids. rewrite map_map. apply map_ext.
  intros item. by rewrite bump_product.
Qed.

(** In a cart with unique identifiers, the entry of identifier [id]
    splits the sequence into two parts that do not mention [id]. *)
Lemma unique_split l1 item l2 :
  NoDup (ids (l1 ++ item :: l2)) ->
  find (has_id (_id (product item))) l1 = None
  /\ find (has_id (_id (product item))) l2 = None.
Proof.
  rewrite ids_app. simpl. intros H.
  apply NoDup_app in H as (_ & Hl1 & H).
  apply NoDup_cons in H as [Hl2 _].
  rewrite !find_absent_ids. split; [|done].
  intros Hin. apply (Hl1 _ Hin). by left.
Qed.

Lemma removeItem_items s id :
  items (exec (removeItem id) s)
  = fold_left (removeItem_step id) (items s) [].
Proof. reflexivity. Qed.

(** What [removeItem(id)] makes of a cart with unique identifiers whose
    entry of [id] holds the integer quantity [n]. *)
Lemma removeItem_unique_items l1 item l2 (n : Z) :
  NoDup (ids (l1 ++ item :: l2)) ->
  quantity item = int n -> n <= 2 ^ 53 ->
  fold_left (removeItem_step (_id (product item))) (l1 ++ item :: l2) []
  = l1 ++ (if 1 <? n
           then [ {| product := product item; quantity := int (n - 1) |} ]
           else []) ++ l2.
Proof.
  intros Huniq Hq Hn. destruct (unique_split _ _ _ Huniq) as [Hl1 Hl2].
  rewrite removeItem_fold_app, removeItem_fold_cons.
  rewrite !removeItem_fold_absent by (by apply find_absent).
  rewrite removeItem_step_nil.
  assert (has_id (_id (product item)) item = true) as ->
    by apply strict_eq_refl.
  rewrite Hq. change one with (int 1). rewrite js_gt_int.
  destruct (Z.ltb_spec 1 n); [|done].
  unfold with_quantity. by rewrite js_sub_int by lia.
Qed.

(** C2, as the code has it.  In a cart state with unique identifiers
    holding an entry [item] of identifier [id] whose quantity is an
    integer [n] up to 2^53, [getItemCount(id)] is [n], and
    [removeItem(id)]
    - lowers that quantity to [n - 1] in place when [n] is greater
      than 1, after which [getItemCount(id)] is [n - 1];
    - takes the entry out when [n] is 1, after which [getItemCount(id)]
      is 0;
    the entries before and after [item] stay as they are. *)
Theorem removeItem_decrements s id l1 item l2 (n : Z) :
  unique_ids s ->
  items s = l1 ++ item :: l2 ->
  _id (product item) = id ->
  quantity item = int n ->
  n <= 2 ^ 53 ->
  let s' := exec (removeItem id) s in
  eval (getItemCount id) s = int n
  /\ (1 < n ->
      items s'
      = l1 ++ {| product := product item; quantity := int (n - 1) |} :: l2
      /\ eval (getItemCount id) s' = int (n - 1))
  /\ (n = 1 ->
      items s' = l1 ++ l2
      /\ eval (getItemCount id) s' = int 0).
Proof.
  intros Huniq Hitems Hid Hq Hn s'. unfold unique_ids in Huniq.
  subst id s'. rewrite Hitems in Huniq.
  destruct (unique_split _ _ _ Huniq) as [Hl1 Hl2].
  rewrite !getItemCount_find, removeItem_items, Hitems.
  rewrite (removeItem_unique_items _ _ _ n) by done.
  assert (Hself : has_id (_id (product item)) item = true)
    by apply strict_eq_refl.
  split; [|split].
  - rewrite (find_none_app _ _ _ Hl1). simpl. by rewrite Hself.
  - intros Hgt. assert ((1 <? n) = true) as -> by lia.
    split; [done|].
    rewrite (find_none_app _ _ _ Hl1). simpl.
    unfold has_id at 1. simpl. by rewrite strict_eq_refl.
  - intros ->. simpl. split; [done|].
    by rewrite (find_none_app _ _ _ Hl1), Hl2.
Qed.

(** C2 fails as stated, on two counts.  On an item array that repeats
    an identifier, [removeItem] visits every entry of it while
    [getItemCount] reads the first one: the count goes from 1 to 4.
    With 2^53 + 4 apples in the cart, [removeItem] leaves the quantity
    as it is, the doubles around it being 4 apart. *)
Lemma removeItem_miscounts :
  (eval (getItemCount "a") duplicated_cart = int 1
   /\ items (exec (removeItem "a") duplicated_cart)
      = [ {| product := apple_repriced; quantity := int 4 |} ]
   /\ eval (getItemCount "a") (exec (removeItem "a") duplicated_cart)
      = int 4)
  /\ (unique_ids stuck_cart
      /\ is_double (int (2 ^ 53 + 4)) = true
      /\ eval (getItemCount "a") stuck_cart = int (2 ^ 53 + 4)
      /\ exec (removeItem "a") stuck_cart = stuck_cart).
Proof.
  split; [by vm_compute|].
  split; [|by vm_compute].
  unfold unique_ids. simpl. apply NoDup_singleton.
Qed.

(** *** Preservation of the invariant *)

Lemma removeItem_fold_ids_sublist id l :
  ids (fold_left (removeItem_step id) l []) `sublist_of` ids l.
Proof.
  induction l as [|x l IH]; [done|].
  rewrite removeItem_fold_cons, ids_app. simpl.
  unfold removeItem_step.
  destruct (strict_eq _ _); [destruct (js_gt _ _)|]; simpl.
  - by apply sublist_skip.
  - by apply sublist_cons.
  - by apply sublist_skip.
Qed.

Lemma removeItem_fold_within id l :
  quantities_within 1 (2 ^ 53) l ->
  quantities_within 1 (2 ^ 53) (fold_left (removeItem_step id) l []).
Proof.
  induction 1 as [|x l (n & Hq & Hn) _ IH]; [constructor|].
  rewrite removeItem_fold_cons. apply Forall_app. split; [|done].
  rewrite removeItem_step_nil.
  destruct (has_id id x); [|by apply Forall_singleton; exists n].
  rewrite Hq. change one with (int 1). rewrite js_gt_int.
  destruct (Z.ltb_spec 1 n); [|constructor].
  apply Forall_singleton. exists (n - 1). simpl.
  split; [apply js_sub_int|]; lia.
Qed.

(** The mutations keep identifiers unique and quantities integers from
    1 to 2^53. *)
Lemma addItem_safe s p :
  unique_ids s -> quantities_within 1 (2 ^ 53) (items s) ->
  unique_ids (exec (addItem p) s)
  /\ quantities_within 1 (2 ^ 53) (items (exec (addItem p) s)).
Proof.
  unfold unique_ids, quantities_within. intros Huniq Hq.
  destruct (find (has_id (_id p)) (items s)) as [found|] eqn:Hfind.
  - rewrite (addItem_present _ _ _ Hfind), ids_bump. split; [done|].
    change (map ?f ?l) with (f <$> l). apply Forall_fmap.
    eapply Forall_impl; [exact Hq|].
    intros item (n & Hn & Hrange). simpl. unfold bump.
    destruct (strict_eq _ _); [|by exists n]. simpl. rewrite Hn.
    by apply js_add_one_within.
  - rewrite (addItem_absent _ _ Hfind), ids_app. split.
    + apply NoDup_app. split; [done|]. split.
      * intros x Hx Hin. simpl in Hin.
        apply list_elem_of_singleton in Hin as ->.
        by apply find_absent_ids in Hfind.
      * apply NoDup_singleton.
    + apply Forall_app. split; [done|].
      apply Forall_singleton. exists 1. simpl. split; [done|lia].
Qed.

Lemma removeItem_safe s id :
  unique_ids s -> quantities_within 1 (2 ^ 53) (items s) ->
  unique_ids (exec (removeItem id) s)
  /\ quantities_within 1 (2 ^ 53) (items (exec (removeItem id) s)).
Proof.
  unfold unique_ids. intros Huniq Hq. rewrite removeItem_items. split.
  - eapply sublist_NoDup; [exact Huniq | apply removeItem_fold_ids_sublist].
  - by apply removeItem_fold_within.
Qed.

Lemma reachable_safe s :
  reachable s ->
  unique_ids s /\ quantities_within 1 (2 ^ 53) (items s).
Proof.
  induction 1 as [|s p _ [Hu Hq]|s id _ [Hu Hq]|s _ _].
  - split; constructor.
  - by apply addItem_safe.
  - by apply removeItem_safe.
  - split; constructor.
Qed.

Lemma within_invariant s :
  unique_ids s -> quantities_within 1 (2 ^ 53) (items s) ->
  cart_invariant s.
Proof.
  intros Hu Hq. split; [done|]. split.
  - eapply Forall_impl; [exact Hq|]. intros item (n & Hn & Hrange).
    cbv beta. rewrite Hn. change one with (int 1). rewrite js_le_int. lia.
  - eapply Forall_impl; [exact Hq|]. intros item (n & Hn & _).
    by exists n.
Qed.

(** C3. Every state reached from the empty cart by [addItem],
    [removeItem] and [clearCart] has pairwise distinct identifiers
    and quantities that are integers of at least 1. *)
Theorem reachable_invariant s :
  reachable s -> cart_invariant s.
Proof.
  intros Hreach. destruct (reachable_safe s Hreach) as [Hu Hq].
  by apply within_invariant.
Qed.

(** C9. When the cart holds an entry of the identifier of [P],
    [addItem(P)] changes quantities only: the product stored at each
    position stays the one that was there, entries of other
    identifiers stay as they are, and the resulting state is the same
    for every product carrying that identifier, whatever its price or
    other attributes.  The unit prices [getTotalPrice] works from are
    therefore those stored before the call. *)
Theorem addItem_keeps_stored_product s p found :
  find (has_id (_id p)) (items s) = Some found ->
  let s' := exec (addItem p) s in
  map product (items s') = map product (items s)
  /\ unit_prices (items s') = unit_prices (items s)
  /\ (forall (i : nat) item, items s !! i = Some item ->
      _id (product item) <> _id p -> items s' !! i = Some item)
  /\ (forall p', _id p' = _id p -> exec (addItem p') s = s').
Proof.
  intros Hfind s'. subst s'.
  assert (Hprod : map product (items (exec (addItem p) s))
                  = map product (items s)).
  { rewrite (addItem_present _ _ _ Hfind), map_map.
    apply map_ext. intros item. apply bump_product. }
  split; [done|]. split; [|split].
  - unfold unit_prices.
    rewrite <- !(map_map product price). by rewrite Hprod.
  - intros i item Hi Hne.
    rewrite (addItem_present _ _ _ Hfind), lookup_map, Hi. simpl.
    unfold bump. by apply strict_eq_false in Hne as ->.
  - intros p' Hid. unfold exec, addItem, set. simpl.
    by rewrite Hid, Hfind.
Qed.
End CartInvariant.

(** ** The basket store against the cart store *)

Lemma basket_find_to_basket id (l : list CartStore.CartItem) :
  find (BasketStore.has_id id) (map to_basket l)
  = to_basket <$> find (CartStore.has_id id) l.
Proof.
  induction l as [|x l IH]; simpl; [done|].
  change (BasketStore.has_id id (to_basket x)) with (CartStore.has_id id x).
  by destruct (CartStore.has_id id x).
Qed.

Lemma basket_removeItem_step id acc (x : CartStore.CartItem) :
  BasketStore.removeItem_step id (map to_basket acc) (to_basket x)
  = map to_basket (CartStore.removeItem_step id acc x).
Proof.
  unfold BasketStore.removeItem_step, CartStore.removeItem_step. simpl.
  destruct (strict_eq _ _); [destruct (js_gt _ _)|];
    by rewrite ?map_app.
Qed.

Lemma basket_removeItem_fold id (l acc : list CartStore.CartItem) :
  fold_left (BasketStore.removeItem_step id) (map to_basket l)
            (map to_basket acc)
  = map to_basket (fold_left (CartStore.removeItem_step id) l acc).
Proof.
  revert acc. induction l as [|x l IH]; intros acc; simpl; [done|].
  by rewrite basket_removeItem_step, IH.
Qed.

Lemma basket_total_fold (l : list CartStore.CartItem) (a : number) :
  fold_left
    (fun total item =>
       js_add total
         (js_mul (nullish (price (BasketStore.product item)) zero)
                 (BasketStore.quantity item)))
    (map to_basket l) a
  = fold_left
      (fun total item =>
         js_add total
           (js_mul (nullish (price (CartStore.product item)) zero)
                   (CartStore.quantity item)))
      l a.
Proof.
  revert a. induction l as [|x l IH]; intros a; simpl; [done|].
  by rewrite IH.
Qed.

Lemma basket_view_to_basket (l : list CartStore.CartItem) :
  basket_view (map to_basket l) = cart_view l.
Proof. unfold basket_view, cart_view. by rewrite map_map. Qed.

(** One call keeps the two stores in correspondence and shows the client
    the same result. *)
Lemma call_simulation (op : Op) c b :
  same_items c b ->
  eval (cart_call op) c = eval (basket_call op) b
  /\ same_items (exec (cart_call op) c) (exec (basket_call op) b).
Proof.
  destruct c as [l], b as [k]. unfold same_items. simpl. intros ->.
  destruct op as [p|id| | |id| ]; unfold eval, exec; simpl.
  - split; [done|]. rewrite basket_find_to_basket.
    unfold CartStore.has_id.
    destruct (find _ l); simpl; [|by rewrite map_app].
    rewrite !map_map. apply map_ext. intros x. simpl.
    by destruct (strict_eq _ _).
  - split; [done|].
    apply (basket_removeItem_fold id l []).
  - done.
  - split; [|done]. by rewrite basket_total_fold.
  - split; [|done]. rewrite basket_find_to_basket.
    unfold CartStore.has_id. by destruct (find _ l).
  - split; [|done]. by rewrite basket_view_to_basket.
Qed.

Lemma session_simulation (ops : list Op) c b :
  same_items c b ->
  eval (session cart_call ops) c = eval (session basket_call ops) b
  /\ same_items (exec (session cart_call ops) c)
                (exec (session basket_call ops) b).
Proof.
  revert c b. induction ops as [|op ops IH]; intros c b Hcb; [done|].
  destruct (call_simulation op c b Hcb) as [Ho Hcb'].
  specialize (IH _ _ Hcb') as [Hos Hfinal].
  unfold eval, exec in *. simpl. unfold bind.
  destruct (cart_call op c) as [o c'], (basket_call op b) as [o' b'].
  simpl in *. subst o'.
  destruct (session cart_call ops c') as [os c''],
           (session basket_call ops b') as [os' b''].
  simpl in *. by subst os'.
Qed.

(** C5. For every sequence of calls issued to both stores from their
    empty initial states, the cart store and the basket store return the
    same results call by call ([clearCart] answering to [clearBasket]),
    and end with the same item sequence. *)
Theorem cart_basket_equivalent (ops : list Op) :
  eval (session cart_call ops) CartStore.initial
  = eval (session basket_call ops) BasketStore.initial
  /\ cart_view (CartStore.items
                  (exec (session cart_call ops) CartStore.initial))
     = basket_view (BasketStore.items
                      (exec (session basket_call ops) BasketStore.initial)).
Proof.
  destruct (session_simulation ops CartStore.initial BasketStore.initial)
    as [Hobs Hitems]; [done|].
  split; [done|]. rewrite Hitems. by rewrite basket_view_to_basket.
Qed.

(** ** The payment webhook *)

Section WebhookClaims.
Import Webhook.

Implicit Types (w : World).

Lemma truthy_nonempty (x : option string) :
  truthy x = true <-> exists v, x = Some v /\ v <> "".
Proof.
  destruct x as [v|]; simpl.
  - rewrite negb_true_iff, String.eqb_neq. split.
    + intros H. by exists v.
    + by intros (? & [= <-] & ?).
  - split; [done|]. by intros (? & ? & _).
Qed.

(** The handler, by cases on the truthiness of its two inputs. *)
Lemma POST_cases w :
  POST w =
  if truthy (signature w) then
    if truthy (secret w) then (None, [ReqText; Headers])
    else (Some (NextResponse_json
                  [("error", "Stripe webhook secret is not set")] 400),
          [ReqText; Headers;
           ConsoleLog "Stripe webhook secret is not set."])
  else (Some (NextResponse_json [("error", "No signature")] 400),
        [ReqText; Headers]).
Proof.
  unfold POST, andThen, req_text, headers, env, console_log, pure.
  unfold signature, secret. simpl.
  destruct (truthy (req_headers (request w) !! _)); simpl; [|done].
  by destruct (truthy (process_env w !! _)).
Qed.

(** C8. When the [stripe-signature] header is missing, or the webhook
    secret is not set, the handler answers with status 400 and a JSON
    body carrying an [error] message.  In every case the handler does
    no more than read the body and the headers and, at most, log that
    the secret is not set; and what it returns and does depends only on
    whether a signature and a secret are there, not on the body, the
    signature's value or the secret's value: nothing is verified and
    no event is handled. *)
Theorem POST_rejects_missing_signature_or_secret w :
  (signature w = None \/ secret w = None ->
   exists message,
     response w
     = Some {| json := [("error", message)]; status := 400 |})
  /\ trace w `prefix_of`
       [ReqText; Headers; ConsoleLog "Stripe webhook secret is not set."]
  /\ (forall w',
        truthy (signature w') = truthy (signature w) ->
        truthy (secret w') = truthy (secret w) ->
        response w' = response w /\ trace w' = trace w).
Proof.
  unfold response, trace. split; [|split].
  - rewrite POST_cases. intros [Hsig|Hkey].
    + rewrite Hsig. simpl. by eexists.
    + rewrite Hkey. simpl. destruct (truthy (signature w)); by eexists.
  - rewrite POST_cases.
    destruct (truthy (signature w)); [destruct (truthy (secret w))|];
      simpl.
    + by exists [ConsoleLog "Stripe webhook secret is not set."].
    + done.
    + by exists [ConsoleLog "Stripe webhook secret is not set."].
  - intros w' Hsig Hkey. rewrite !POST_cases, Hsig, Hkey. done.
Qed.

(** C10, as the code has it.  When the [stripe-signature] header is
    present with a non-empty value and the webhook secret is set to a
    non-empty value, the handler returns no response ([undefined]),
    having read the body and the headers and nothing more. *)
Theorem POST_returns_undefined w (sig key : string) :
  signature w = Some sig -> sig <> "" ->
  secret w = Some key -> key <> "" ->
  response w = None /\ trace w = [ReqText; Headers].
Proof.
  intros Hsig Hsig' Hkey Hkey'. unfold response, trace.
  rewrite POST_cases.
  assert (truthy (signature w) = true) as ->
    by (apply truthy_nonempty; eauto).
  assert (truthy (secret w) = true) as ->
    by (apply truthy_nonempty; eauto).
  done.
Qed.

(** C10 fails as stated: with the header present (its value empty) and
    the secret set, the handler returns the 400 response of a missing
    signature. *)
Lemma POST_empty_signature_responds :
  is_Some (signature world_empty_signature)
  /\ is_Some (secret world_empty_signature)
  /\ response world_empty_signature
     = Some {| json := [("error", "No signature")]; status := 400 |}.
Proof.
  split; [|split].
  - by exists "".
  - by exists "whsec_test".
  - by vm_compute.
Qed.
End WebhookClaims.

(** * Further properties of the stores *)

Section CartCounts.
Import CartStore.

Implicit Types (s : CartState) (l k : list CartItem) (item : CartItem).
Implicit Types (id : string) (p : Product).

Lemma find_some_app {A} (f : A -> bool) (l1 l2 : list A) (x : A) :
  find f l1 = Some x -> find f (l1 ++ l2) = Some x.
Proof.
  induction l1 as [|y l1 IH]; simpl; [done|].
  destruct (f y); [done|]. exact IH.
Qed.

(** The first entry of an identifier splits the sequence. *)
Lemma find_split id l item :
  find (has_id id) l = Some item ->
  exists l1 l2, l = l1 ++ item :: l2 /\ find (has_id id) l1 = None.
Proof.
  induction l as [|x l IH]; simpl; [done|].
  destruct (has_id id x) eqn:Hx.
  - intros [= ->]. by exists [], l.
  - intros Hfind. destruct (IH Hfind) as (l1 & l2 & -> & Hl1).
    exists (x :: l1), l2. split; [done|]. simpl. by rewrite Hx.
Qed.

Lemma has_id_other id id' item :
  id' <> id -> has_id id item = true -> has_id id' item = false.
Proof.
  intros Hne Hid. apply has_id_true in Hid.
  apply strict_eq_false. congruence.
Qed.

Lemma has_id_new id p q :
  has_id id {| product := p; quantity := q |} = strict_eq (_id p) id.
Proof. reflexivity. Qed.



Lemma count_addItem_other s p id :
  id <> _id p ->
  eval (getItemCount id) (exec (addItem p) s) = eval (getItemCount id) s.
Proof.
  intros Hne. rewrite !getItemCount_find.
  destruct (find (has_id (_id p)) (items s)) as [found|] eqn:Hp.
  - rewrite (addItem_present _ _ _ Hp).
    rewrite find_map_stable by (intros x; apply bump_has_id).
    destruct (find (has_id id) (items s)) as [item|] eqn:Hid; [|done].
    simpl. apply find_some in Hid as [_ Hid]. apply has_id_true in Hid.
    unfold bump.
    assert (strict_eq (_id (product item)) (_id p) = false) as ->; [|done].
    apply strict_eq_false. congruence.
  - rewrite (addItem_absent _ _ Hp).
    destruct (find (has_id id) (items s)) as [item|] eqn:Hid.
    + by rewrite (find_some_app _ _ _ _ Hid).
    + rewrite (find_snoc _ _ _ Hid), has_id_new.
      assert (strict_eq (_id p) id = false) as ->; [|done].
      apply strict_eq_false. congruence.
Qed.

Lemma removeItem_find_other id id' l :
  id' <> id ->
  find (has_id id') (fold_left (removeItem_step id) l [])
  = find (has_id id') l.
Proof.
  intros Hne. induction l as [|x l IH]; [done|].
  rewrite removeItem_fold_cons, removeItem_step_nil. simpl.
  destruct (has_id id x) eqn:Hx.
  - rewrite (has_id_other _ _ _ Hne Hx).
    destruct (js_gt (quantity x) one); simpl; [|done].
    by rewrite has_id_with_quantity, (has_id_other _ _ _ Hne Hx).
  - simpl. by destruct (has_id id' x).
Qed.

Lemma others_app id l k : others id (l ++ k) = others id l ++ others id k.
Proof. apply List.filter_app. Qed.

Lemma others_bump id l : others id (map (bump id) l) = others id l.
Proof.
  induction l as [|x l IH]; [done|]. simpl.
  rewrite bump_has_id. unfold bump at 1. fold (has_id id x).
  destruct (has_id id x); simpl; by rewrite IH.
Qed.

Lemma others_removeItem id l :
  others id (fold_left (removeItem_step id) l []) = others id l.
Proof.
  induction l as [|x l IH]; [done|].
  rewrite removeItem_fold_cons, others_app, IH, removeItem_step_nil.
  simpl. destruct (has_id id x) eqn:Hx; simpl.
  - destruct (js_gt (quantity x) one); simpl; [|done].
    by rewrite has_id_with_quantity, Hx.
  - by rewrite Hx.
Qed.

(** X1. In a cart whose quantities are all at least 1,
    [getItemCount(id)] is 0 exactly when no entry has the identifier
    [id], and at least 1 otherwise. *)
Theorem getItemCount_zero_iff_absent s id :
  positive_quantities s ->
  (eval (getItemCount id) s = int 0
   <-> forall item, item ∈ items s -> _id (product item) <> id)
  /\ (eval (getItemCount id) s = int 0
      \/ js_le (int 1) (eval (getItemCount id) s) = true).
Proof.
  intros Hpos. rewrite getItemCount_find, <- find_absent.
  destruct (find (has_id id) (items s)) as [item|] eqn:Hfind.
  - apply find_some in Hfind as [Hin _].
    unfold positive_quantities in Hpos. rewrite Forall_forall in Hpos.
    apply list_elem_of_In in Hin. specialize (Hpos _ Hin). simpl in Hpos.
    split; [|by right]. split; [|done].
    intros Hzero. rewrite Hzero in Hpos. by vm_compute in Hpos.
  - split; [done|by left].
Qed.

(** X2. [addItem(P)] leaves the entries of every other identifier as
    they are and in their order, and the count of every other
    identifier unchanged. *)
Theorem addItem_frame s p :
  others (_id p) (items (exec (addItem p) s)) = others (_id p) (items s)
  /\ (forall id, id <> _id p ->
      eval (getItemCount id) (exec (addItem p) s)
      = eval (getItemCount id) s).
Proof.
  split.
  - destruct (find (has_id (_id p)) (items s)) as [found|] eqn:Hp.
    + rewrite (addItem_present _ _ _ Hp). apply others_bump.
    + rewrite (addItem_absent _ _ Hp), others_app. simpl.
      rewrite has_id_new, strict_eq_refl. simpl.
      by rewrite app_nil_r.
  - intros id Hne. by apply count_addItem_other.
Qed.

(** X3. [removeItem(id)] leaves the entries of every other identifier
    as they are and in their order, and the count of every other
    identifier unchanged. *)
Theorem removeItem_frame s id :
  others id (items (exec (removeItem id) s)) = others id (items s)
  /\ (forall id', id' <> id ->
      eval (getItemCount id') (exec (removeItem id) s)
      = eval (getItemCount id') s).
Proof.
  split.
  - rewrite removeItem_items. apply others_removeItem.
  - intros id' Hne. rewrite !getItemCount_find, removeItem_items.
    by rewrite removeItem_find_other.
Qed.
End CartCounts.

Section CartComposition.
Import CartStore.

Implicit Types (s : CartState) (l k : list CartItem) (item : CartItem).
Implicit Types (id : string) (p : Product).

Lemma map_bump_absent id l :
  find (has_id id) l = None -> map (bump id) l = l.
Proof.
  induction l as [|x l IH]; simpl; [done|].
  unfold bump at 1. fold (has_id id x).
  destruct (has_id id x); [done|]. intros H. by rewrite IH.
Qed.

Lemma removeItem_unique s id :
  unique_ids s -> unique_ids (exec (removeItem id) s).
Proof.
  unfold unique_ids. rewrite removeItem_items. intros H.
  eapply sublist_NoDup; [exact H | apply removeItem_fold_ids_sublist].
Qed.

(** Undoing the [map] of [addItem] by the [reduce] of [removeItem]. *)
Lemma removeItem_fold_bump id l :
  quantities_within 1 (2 ^ 53 - 1) l ->
  fold_left (removeItem_step id) (map (bump id) l) [] = l.
Proof.
  induction 1 as [|x l (n & Hq & Hn) _ IH]; [done|]. simpl map.
  rewrite removeItem_fold_cons, IH, removeItem_step_nil, bump_has_id.
  unfold bump. fold (has_id id x).
  destruct (has_id id x); [|done].
  destruct x as [xp xq]. simpl in *. subst xq.
  change one with (int 1).
  rewrite js_add_int, js_gt_int by lia.
  assert ((1 <? n + 1) = true) as -> by lia.
  unfold with_quantity. simpl. rewrite js_sub_int by lia.
  do 3 f_equal. lia.
Qed.

(** X4. In a cart whose quantities are integers from 1 to 2^53 - 1,
    [addItem(P)] followed by [removeItem(P._id)] gives back the state
    before the two calls, whether or not the cart held the product. *)
Theorem removeItem_after_addItem s p :
  quantities_within 1 (2 ^ 53 - 1) (items s) ->
  exec (removeItem (_id p)) (exec (addItem p) s) = s.
Proof.
  intros Hq. destruct s as [l]. simpl in Hq.
  assert (items (exec (removeItem (_id p))
                   (exec (addItem p) {| items := l |})) = l) as Hitems.
  { rewrite removeItem_items.
    destruct (find (has_id (_id p)) l) as [found|] eqn:Hp.
    - rewrite (addItem_present {| items := l |} _ _ Hp). simpl.
      by apply removeItem_fold_bump.
    - rewrite (addItem_absent {| items := l |} _ Hp). simpl.
      rewrite removeItem_fold_app, removeItem_fold_absent
        by (by apply find_absent).
      simpl. rewrite removeItem_step_nil, has_id_new, strict_eq_refl.
      cbn [quantity]. change one with (int 1). rewrite js_gt_int.
      simpl. by rewrite app_nil_r. }
  destruct (exec (removeItem (_id p)) _) as [l']. simpl in Hitems.
  by subst l'.
Qed.

Lemma sum_over_entries_app l k :
  sum_over_entries (l ++ k) = sum_over_entries l + sum_over_entries k.
Proof. induction l as [|x l IH]; simpl; lia. Qed.

Lemma sum_of_magnitudes_app l k :
  sum_of_magnitudes (l ++ k) = sum_of_magnitudes l + sum_of_magnitudes k.
Proof. induction l as [|x l IH]; simpl; lia. Qed.

Lemma getTotalPrice_safe s :
  safe_total s -> eval getTotalPrice s = int (sum_over_entries (items s)).
Proof.
  intros [Hint Hsum]. rewrite getTotalPrice_eval.
  change (Num 0) with (int 0).
  rewrite running_total_exact by (done || lia). f_equal.
Qed.

(** X5. Take a cart with unique identifiers whose total involves
    integers of magnitude up to 2^53 only, before and after
    [addItem(P)], the count of [P._id] being an integer below 2^53.
    The call raises the total by one unit price: the price stored with
    the entry of [P._id] when the cart holds one, whatever the price of
    [P] itself, and the price of [P] otherwise; a missing price counts
    as 0. *)
Theorem getTotalPrice_addItem s p (n : Z) :
  unique_ids s ->
  safe_total s ->
  safe_total (exec (addItem p) s) ->
  eval (getItemCount (_id p)) s = int n ->
  - 2 ^ 53 <= n < 2 ^ 53 ->
  eval getTotalPrice (exec (addItem p) s)
  = int (to_Z (eval getTotalPrice s)
         + match find (has_id (_id p)) (items s) with
           | Some found => exact_price (product found)
           | None => exact_price p
           end).
Proof.
  intros Huniq Hsafe Hsafe' Hcount Hn.
  rewrite (getTotalPrice_safe _ Hsafe), (getTotalPrice_safe _ Hsafe').
  rewrite to_Z_int. f_equal.
  rewrite getItemCount_find in Hcount.
  destruct (find (has_id (_id p)) (items s)) as [found|] eqn:Hp.
  - rewrite (addItem_present _ _ _ Hp).
    pose proof (find_some _ _ Hp) as [_ Hid]. apply has_id_true in Hid.
    destruct (find_split _ _ _ Hp) as (l1 & l2 & Hl & Hl1).
    unfold unique_ids in Huniq. rewrite Hl in Huniq |- *.
    destruct (unique_split _ _ _ Huniq) as [_ Hl2].
    rewrite Hid in Hl2.
    rewrite map_app. simpl map.
    rewrite (map_bump_absent _ _ Hl1), (map_bump_absent _ _ Hl2).
    rewrite !sum_over_entries_app. simpl.
    unfold bump. rewrite Hid, strict_eq_refl. simpl.
    change one with (int 1).
    rewrite Hcount, js_add_int, !to_Z_int by lia. lia.
  - rewrite (addItem_absent _ _ Hp), sum_over_entries_app. simpl.
    change one with (int 1). rewrite to_Z_int. lia.
Qed.

Lemma integer_entries_app l k :
  integer_entries (l ++ k) <-> integer_entries l /\ integer_entries k.
Proof. apply Forall_app. Qed.

(** X6. In a cart with unique identifiers whose total involves integers
    of magnitude up to 2^53 only, and which holds an entry of
    identifier [id] with an integer quantity from 1 to 2^53,
    [removeItem(id)] lowers the total by the unit price stored with
    that entry. *)
Theorem getTotalPrice_removeItem s id found (n : Z) :
  unique_ids s ->
  safe_total s ->
  find (has_id id) (items s) = Some found ->
  quantity found = int n ->
  1 <= n <= 2 ^ 53 ->
  eval getTotalPrice (exec (removeItem id) s)
  = int (to_Z (eval getTotalPrice s) - exact_price (product found)).
Proof.
  intros Huniq Hsafe Hfind Hq Hn.
  rewrite (getTotalPrice_safe _ Hsafe), to_Z_int.
  destruct Hsafe as [Hint Hsum].
  pose proof (find_some _ _ Hfind) as [_ Hid]. apply has_id_true in Hid.
  destruct (find_split _ _ _ Hfind) as (l1 & l2 & Hl & Hl1).
  unfold unique_ids in Huniq. rewrite Hl in *. subst id.
  assert (Hitems : items (exec (removeItem (_id (product found)))
                            s)
                   = l1 ++ (if 1 <? n
                            then [ {| product := product found;
                                      quantity := int (n - 1) |} ]
                            else []) ++ l2).
  { rewrite removeItem_items, Hl.
    apply removeItem_unique_items; [done|done|lia]. }
  apply integer_entries_app in Hint as [Hint1 Hint2].
  apply Forall_cons in Hint2 as [[_ Hprice] Hint2].
  rewrite !sum_of_magnitudes_app in Hsum. simpl in Hsum.
  rewrite Hq, to_Z_int in Hsum.
  pose proof (sum_of_magnitudes_nonneg l1).
  pose proof (sum_of_magnitudes_nonneg l2).
  rewrite getTotalPrice_safe.
  - rewrite Hitems, !sum_over_entries_app. simpl.
    rewrite Hq, to_Z_int. f_equal.
    destruct (Z.ltb_spec 1 n); simpl; rewrite ?to_Z_int; nia.
  - unfold safe_total. rewrite Hitems. split.
    + apply integer_entries_app. split; [done|].
      apply integer_entries_app. split; [|done].
      destruct (1 <? n); [|constructor].
      apply Forall_singleton. simpl. split; [by eexists|done].
    + rewrite !sum_of_magnitudes_app.
      destruct (Z.ltb_spec 1 n); simpl; rewrite ?to_Z_int; [nia|lia].
Qed.

(** How [removeItem] moves the count of its own identifier. *)
Lemma count_removeItem s id (q : Z) :
  unique_ids s ->
  eval (getItemCount id) s = int q ->
  q <= 2 ^ 53 ->
  eval (getItemCount id) (exec (removeItem id) s) = int (Z.max 0 (q - 1)).
Proof.
  intros Huniq Hcount Hq.
  rewrite !getItemCount_find, removeItem_items in *.
  destruct (find (has_id id) (items s)) as [found|] eqn:Hfind.
  - pose proof (find_some _ _ Hfind) as [_ Hid]. apply has_id_true in Hid.
    destruct (find_split _ _ _ Hfind) as (l1 & l2 & Hl & Hl1).
    unfold unique_ids in Huniq. rewrite Hl in Huniq |- *. subst id.
    destruct (unique_split _ _ _ Huniq) as [_ Hl2].
    rewrite (removeItem_unique_items _ _ _ q) by done.
    rewrite (find_none_app _ _ _ Hl1).
    destruct (Z.ltb_spec 1 q); simpl.
    + rewrite has_id_new, strict_eq_refl. cbn [quantity]. f_equal. lia.
    + rewrite Hl2. change zero with (int 0). f_equal. lia.
  - rewrite removeItem_fold_absent by (by apply find_absent).
    rewrite Hfind. apply (int_inj 0 q) in Hcount as <-. reflexivity.
Qed.

Lemma iter_unique s id (n : nat) :
  unique_ids s -> unique_ids (Nat.iter n (exec (removeItem id)) s).
Proof.
  intros H. induction n as [|n IH]; [done|]. simpl.
  by apply removeItem_unique.
Qed.

(** X7. In a cart with unique identifiers where the count of [id] is an
    integer [q] up to 2^53, one or more successive calls of
    [removeItem(id)], [n + 1] of them, lower the count by their number
    and stop at 0: the count never becomes negative, and the calls past
    the removal of the entry change nothing for [id]. *)
Theorem removeItem_repeated s id (q : Z) (n : nat) :
  unique_ids s ->
  eval (getItemCount id) s = int q ->
  q <= 2 ^ 53 ->
  eval (getItemCount id) (Nat.iter (S n) (exec (removeItem id)) s)
  = int (Z.max 0 (q - Z.of_nat (S n))).
Proof.
  intros Huniq Hcount Hq. induction n as [|n IH].
  - simpl. rewrite (count_removeItem _ _ q) by done. f_equal; lia.
  - change (Nat.iter (S (S n)) ?f ?x) with (f (Nat.iter (S n) f x)).
    rewrite (count_removeItem _ _ _ (iter_unique _ _ _ Huniq) IH) by lia.
    f_equal; lia.
Qed.

End CartComposition.

Section CartOrder.
Import CartStore.

Implicit Types (s : CartState) (l k : list CartItem) (item : CartItem).
Implicit Types (id : string) (p : Product).

Lemma removeItem_fold_products_sublist id l :
  map product (fold_left (removeItem_step id) l [])
  `sublist_of` map product l.
Proof.
  induction l as [|x l IH]; [done|].
  rewrite removeItem_fold_cons, map_app, removeItem_step_nil. simpl.
  destruct (has_id id x); [destruct (js_gt _ _)|]; simpl.
  - by apply sublist_skip.
  - by apply sublist_cons.
  - by apply sublist_skip.
Qed.

(** X9. [addItem] never drops, replaces or reorders a stored product:
    the products held before the call are, in their order, the first
    products held after it, and the sequence grows by one entry at
    most. *)
Theorem addItem_preserves_order s p :
  map product (items s) `prefix_of` map product (items (exec (addItem p) s))
  /\ (length (items s) <= length (items (exec (addItem p) s))
      <= length (items s) + 1)%nat.
Proof.
  destruct (find (has_id (_id p)) (items s)) as [found|] eqn:Hp.
  - rewrite (addItem_present _ _ _ Hp), map_map, length_map.
    split; [|lia].
    rewrite (map_ext (fun x => product (bump (_id p) x)) product)
      by (intros; apply bump_product).
    done.
  - rewrite (addItem_absent _ _ Hp), map_app, length_app. simpl.
    split; [|lia]. by eexists.
Qed.

(** X10. [removeItem] never adds, replaces or reorders a stored
    product: the products held after the call are, in their order,
    among those held before it. *)
Theorem removeItem_preserves_order s id :
  map product (items (exec (removeItem id) s))
  `sublist_of` map product (items s)
  /\ (length (items (exec (removeItem id) s)) <= length (items s))%nat.
Proof.
  rewrite removeItem_items.
  pose proof (removeItem_fold_products_sublist id (items s)) as Hsub.
  split; [done|].
  apply sublist_length in Hsub. by rewrite !length_map in Hsub.
Qed.

(** X11. In a cart whose quantities are integers up to 2^53, an entry
    of identifier [id] that is still in the cart after [removeItem(id)]
    has a quantity of at least 1: an entry is taken out rather than
    left at 0 or below. *)
Theorem removeItem_leaves_no_empty_entry s id item :
  Forall (fun x => exists n, quantity x = int n /\ n <= 2 ^ 53) (items s) ->
  item ∈ items (exec (removeItem id) s) ->
  _id (product item) = id ->
  js_le (int 1) (quantity item) = true.
Proof.
  rewrite removeItem_items. intros Hint Hin Hid. apply has_id_true in Hid.
  induction Hint as [|x l (n & Hq & Hn) _ IH];
    [by apply elem_of_nil in Hin|].
  rewrite removeItem_fold_cons, removeItem_step_nil in Hin.
  apply elem_of_app in Hin as [Hin|Hin]; [|by apply IH].
  destruct (has_id id x) eqn:Hx.
  - rewrite Hq in Hin. change one with (int 1) in *.
    rewrite js_gt_int in Hin.
    destruct (Z.ltb_spec 1 n).
    + apply list_elem_of_singleton in Hin as ->. cbn [quantity with_quantity].
      rewrite js_sub_int, js_le_int by lia. lia.
    + by apply elem_of_nil in Hin.
  - apply list_elem_of_singleton in Hin as ->. congruence.
Qed.

Lemma running_total_nonneg l (a : number) :
  js_le zero a = true ->
  Forall (fun item => js_le one (quantity item) = true) l ->
  Forall (fun item => exists u, quantity item = Num u) l ->
  Forall (fun item =>
            js_le zero (match price (product item) with
                        | Some x => x
                        | None => zero
                        end) = true) l ->
  js_le zero (running_total a l) = true.
Proof.
  intros Ha Hpos. revert a Ha.
  induction Hpos as [|x l Hx _ IH]; intros a Ha Hfin Hprice; [done|].
  apply Forall_cons in Hfin as [[u Hu] Hfin].
  apply Forall_cons in Hprice as [Hp Hprice].
  cbn [running_total]. apply IH; [|done|done].
  apply js_add_nonneg; [done|].
  rewrite Hu in *. by apply js_mul_nonneg.
Qed.

(** X12. In a cart whose quantities are finite and at least 1 and whose
    prices are not negative, [getTotalPrice()] is not negative. *)
Theorem getTotalPrice_nonneg s :
  positive_quantities s -> finite_quantities s -> nonneg_prices s ->
  js_le (int 0) (eval getTotalPrice s) = true.
Proof.
  intros Hpos Hfin Hprice. rewrite getTotalPrice_eval.
  by apply running_total_nonneg.
Qed.

Lemma sum_over_entries_perm l k :
  l ≡ₚ k -> sum_over_entries l = sum_over_entries k.
Proof.
  induction 1 as [|x l k _ IH|x y l|l k m _ IH1 _ IH2]; simpl; lia.
Qed.

Lemma sum_of_magnitudes_perm l k :
  l ≡ₚ k -> sum_of_magnitudes l = sum_of_magnitudes k.
Proof.
  induction 1 as [|x l k _ IH|x y l|l k m _ IH1 _ IH2]; simpl; lia.
Qed.

(** X13. The total of a cart that involves integers of magnitude up to
    2^53 only does not depend on the order of the entries: a cart
    holding the same entries in another order has the same total. *)
Theorem getTotalPrice_order_independent s s' :
  safe_total s ->
  items s ≡ₚ items s' ->
  eval getTotalPrice s = eval getTotalPrice s'.
Proof.
  intros Hsafe Hperm.
  assert (Hsafe' : safe_total s').
  { destruct Hsafe as [Hint Hsum]. split.
    - unfold integer_entries. by rewrite <- Hperm.
    - by rewrite <- (sum_of_magnitudes_perm _ _ Hperm). }
  rewrite !getTotalPrice_safe by done.
  by rewrite (sum_over_entries_perm _ _ Hperm).
Qed.

Lemma bump_comm id id' item :
  bump id (bump id' item) = bump id' (bump id item).
Proof.
  unfold bump. simpl.
  destruct (strict_eq (_id (product item)) id') eqn:E';
    destruct (strict_eq (_id (product item)) id) eqn:E; simpl;
    rewrite ?E, ?E'; done.
Qed.

Lemma find_bump_other id id' l :
  find (has_id id) (map (bump id') l)
  = bump id' <$> find (has_id id) l.
Proof. apply find_map_stable. intros x. apply bump_has_id. Qed.

(** The items after [addItem(p)] then [addItem(p')], for products of
    different identifiers, by cases on which of the two the cart
    holds. *)
Lemma addItem_twice_items s p p' :
  _id p <> _id p' ->
  items (exec (addItem p') (exec (addItem p) s))
  = match find (has_id (_id p)) (items s),
          find (has_id (_id p')) (items s) with
    | Some _, Some _ => map (bump (_id p')) (map (bump (_id p)) (items s))
    | Some _, None =>
        map (bump (_id p)) (items s) ++ [ {| product := p'; quantity := one |} ]
    | None, Some _ =>
        map (bump (_id p')) (items s) ++ [ {| product := p; quantity := one |} ]
    | None, None =>
        items s ++ [ {| product := p; quantity := one |} ]
                ++ [ {| product := p'; quantity := one |} ]
    end.
Proof.
  intros Hne.
  assert (Hnew : has_id (_id p') {| product := p; quantity := one |} = false)
    by (by apply strict_eq_false).
  destruct (find (has_id (_id p)) (items s)) as [f|] eqn:Hp;
    destruct (find (has_id (_id p')) (items s)) as [f'|] eqn:Hp'.
  - assert (find (has_id (_id p')) (items (exec (addItem p) s))
            = Some (bump (_id p) f')) as Hp2
      by (by rewrite (addItem_present _ _ _ Hp), find_bump_other, Hp').
    by rewrite (addItem_present _ _ _ Hp2), (addItem_present _ _ _ Hp).
  - assert (find (has_id (_id p')) (items (exec (addItem p) s)) = None)
      as Hp2
      by (by rewrite (addItem_present _ _ _ Hp), find_bump_other, Hp').
    by rewrite (addItem_absent _ _ Hp2), (addItem_present _ _ _ Hp).
  - assert (find (has_id (_id p')) (items (exec (addItem p) s))
            = Some f') as Hp2
      by (rewrite (addItem_absent _ _ Hp); by apply find_some_app).
    rewrite (addItem_present _ _ _ Hp2), (addItem_absent _ _ Hp).
    rewrite map_app. simpl. f_equal. unfold bump.
    fold (has_id (_id p') {| product := p; quantity := one |}).
    by rewrite Hnew.
  - assert (find (has_id (_id p')) (items (exec (addItem p) s)) = None)
      as Hp2
      by (rewrite (addItem_absent _ _ Hp), (find_snoc _ _ _ Hp');
          by rewrite Hnew).
    rewrite (addItem_absent _ _ Hp2), (addItem_absent _ _ Hp).
    by rewrite <- app_assoc.
Qed.

(** X14. Adding two products of different identifiers in either order
    gives carts with the same entries: the two item sequences are
    permutations of one another, and they are equal unless both
    products are new to the cart, in which case the two new entries
    come in the order of the calls. *)
Theorem addItem_commutes s p p' :
  _id p <> _id p' ->
  items (exec (addItem p') (exec (addItem p) s))
  ≡ₚ items (exec (addItem p) (exec (addItem p') s))
  /\ (is_Some (find (has_id (_id p)) (items s))
      \/ is_Some (find (has_id (_id p')) (items s)) ->
      exec (addItem p') (exec (addItem p) s)
      = exec (addItem p) (exec (addItem p') s)).
Proof.
  intros Hne.
  assert (Hne' : _id p' <> _id p) by congruence.
  pose proof (addItem_twice_items s p p' Hne) as H1.
  pose proof (addItem_twice_items s p' p Hne') as H2.
  destruct (exec (addItem p') (exec (addItem p) s)) as [l1].
  destruct (exec (addItem p) (exec (addItem p') s)) as [l2].
  simpl in *.
  destruct (find (has_id (_id p)) (items s)) as [f|];
    destruct (find (has_id (_id p')) (items s)) as [f'|]; subst l1 l2.
  - assert (map (bump (_id p')) (map (bump (_id p)) (items s))
            = map (bump (_id p)) (map (bump (_id p')) (items s))) as ->.
    { rewrite !map_map. apply map_ext. intros x. apply bump_comm. }
    done.
  - done.
  - done.
  - split.
    + apply Permutation_app_head, Permutation_swap.
    + intros [[? [=]]|[? [=]]].
Qed.
End CartOrder.

(** ** The basket store *)

Lemma same_items_invariant c b :
  same_items c b -> cart_invariant c -> basket_invariant b.
Proof.
  unfold same_items, cart_invariant, unique_ids, positive_quantities,
    integer_quantities, basket_invariant, ids.
  intros -> (Huniq & Hpos & Hint). split; [|split].
  - by rewrite map_map.
  - change (map ?f ?l) with (f <$> l). by apply Forall_fmap.
  - change (map ?f ?l) with (f <$> l). by apply Forall_fmap.
Qed.

Lemma basket_reachable_simulated b :
  basket_reachable b ->
  exists c, (unique_ids c
             /\ quantities_within 1 (2 ^ 53) (CartStore.items c))
            /\ same_items c b.
Proof.
  induction 1 as [|b p _ (c & [Hu Hq] & Hsim)|b id _ (c & [Hu Hq] & Hsim)
                  |b _ _].
  - exists CartStore.initial. split; [split; constructor | done].
  - exists (exec (CartStore.addItem p) c).
    split; [by apply addItem_safe|].
    exact (proj2 (call_simulation (OpAddItem p) c b Hsim)).
  - exists (exec (CartStore.removeItem id) c).
    split; [by apply removeItem_safe|].
    exact (proj2 (call_simulation (OpRemoveItem id) c b Hsim)).
  - exists CartStore.initial. split; [split; constructor | done].
Qed.

(** X15. Every basket state reached from the empty basket by
    [addItem], [removeItem] and [clearBasket] has pairwise distinct
    identifiers and quantities that are integers of at least 1. *)
Theorem basket_reachable_invariant b :
  basket_reachable b -> basket_invariant b.
Proof.
  intros Hreach.
  destruct (basket_reachable_simulated b Hreach) as (c & [Hu Hq] & Hsim).
  apply (same_items_invariant c); [done|]. by apply within_invariant.
Qed.

(** ** The payment webhook, continued *)

Section WebhookFacts.
Import Webhook.

Implicit Types (w : World).

(** X16. The handler returns no response exactly when the
    [stripe-signature] header and the webhook secret are both there
    with non-empty values. *)
Theorem POST_undefined_iff w :
  response w = None
  <-> (exists sig, signature w = Some sig /\ sig <> "")
      /\ (exists key, secret w = Some key /\ key <> "").
Proof.
  rewrite <- !truthy_nonempty. unfold response. rewrite POST_cases.
  destruct (truthy (signature w)), (truthy (secret w)); simpl;
    split; try done; by intros [? ?].
Qed.

(** X17. Whatever the handler returns is an error: a response has
    status 400 and a body with the single field [error].  The signature
    is looked at first: the message is "No signature" when the header
    is missing or empty, whatever the secret, and "Stripe webhook secret
    is not set" when only the secret is missing or empty. *)
Theorem POST_responses_are_errors w r :
  response w = Some r ->
  status r = 400
  /\ (json r = [("error", "No signature")]
      /\ truthy (signature w) = false
      \/ json r = [("error", "Stripe webhook secret is not set")]
         /\ truthy (signature w) = true
         /\ truthy (secret w) = false).
Proof.
  unfold response. rewrite POST_cases.
  destruct (truthy (signature w)), (truthy (secret w)); simpl;
    intros [= <-]; simpl; split; try done; auto.
Qed.

(** X18. The handler writes to the console in one case only, a
    signature without a secret, and then writes a fixed message: the
    body, the signature and the secret are never logged. *)
Theorem POST_logs_only_missing_secret w message :
  ConsoleLog message ∈ trace w
  <-> message = "Stripe webhook secret is not set."
      /\ truthy (signature w) = true
      /\ truthy (secret w) = false.
Proof.
  unfold trace. rewrite POST_cases.
  destruct (truthy (signature w)), (truthy (secret w)); simpl.
  - split; [|by intros (_ & _ & ?)].
    intros Hin. repeat (apply elem_of_cons in Hin as [Hin|Hin]; [done|]).
    by apply elem_of_nil in Hin.
  - split.
    + intros Hin.
      repeat (apply elem_of_cons in Hin as [Hin|Hin];
              [try done; by injection Hin as ->|]).
      by apply elem_of_nil in Hin.
    + intros (-> & _ & _). do 2 right. by left.
  - split; [|by intros (_ & ? & _)].
    intros Hin. repeat (apply elem_of_cons in Hin as [Hin|Hin]; [done|]).
    by apply elem_of_nil in Hin.
  - split; [|by intros (_ & ? & _)].
    intros Hin. repeat (apply elem_of_cons in Hin as [Hin|Hin]; [done|]).
    by apply elem_of_nil in Hin.
Qed.
End WebhookFacts.

(** ** The Easter sale banner *)

Section BannerFacts.
Import SaleBanner.

Context {Sale Value : Type}.
Variable isActive : Sale -> option bool.
Variables title description couponCode discountAmount : Sale -> Value.

(** X19. The banner never fails on a missing sale: it renders nothing
    exactly when the content system has no sale for the code "EASTER"
    or that sale is not flagged active (flag false or missing), and it
    renders markup otherwise.  Sales under other codes play no part. *)
Theorem EasterSaleBanner_null_iff (lookup : string -> option Sale) :
  EasterSaleBanner isActive title description couponCode discountAmount
    lookup <> TypeError
  /\ (EasterSaleBanner isActive title description couponCode discountAmount
    lookup = Null
      <-> lookup "EASTER" = None
          \/ exists sale, lookup "EASTER" = Some sale
                          /\ isActive sale <> Some true)
  /\ (forall lookup' : string -> option Sale,
        lookup' "EASTER" = lookup "EASTER" ->
        EasterSaleBanner isActive title description couponCode discountAmount
          lookup' = EasterSaleBanner isActive title description couponCode discountAmount
    lookup).
Proof.
  unfold EasterSaleBanner. simpl. split; [|split].
  - destruct (lookup "EASTER") as [sale|]; simpl; [|done].
    by destruct (isActive sale) as [[]|].
  - destruct (lookup "EASTER") as [sale|]; simpl.
    + destruct (isActive sale) as [[]|] eqn:Hact; simpl.
      * split; [done|]. intros [?|(sale' & [= <-] & Hne)]; [done|].
        congruence.
      * split; [|done]. intros _. right. exists sale. by rewrite Hact.
      * split; [|done]. intros _. right. exists sale. by rewrite Hact.
    + split; [|done]. by left.
  - intros lookup' Heq. by rewrite Heq.
Qed.

(** X20. For an active Easter sale the banner shows, in this order, the
    sale's title, its description, its coupon code after the words
    "Use code " and its discount between "for " and "% OFF": these four
    fields of the sale and nothing else of it. *)
Theorem EasterSaleBanner_content (lookup : string -> option Sale) sale :
  lookup "EASTER" = Some sale ->
  isActive sale = Some true ->
  exists n,
    EasterSaleBanner isActive title description couponCode discountAmount
    lookup = Jsx n
    /\ exprs n = [ title sale; description sale;
                   couponCode sale; discountAmount sale ]
    /\ texts n = [ "Use code "; "for "; "% OFF" ].
Proof.
  intros Hsale Hactive. unfold EasterSaleBanner. simpl.
  rewrite Hsale, Hactive. simpl. by eexists.
Qed.
End BannerFacts.


(** ** The properties on the sample inputs *)

Section Samples.
Import CartStore.

Lemma scenario_unique : unique_ids scenario_cart.
Proof. by apply (bool_decide_unpack _). Defined.

Lemma scenario_positive : positive_quantities scenario_cart.
Proof. repeat constructor. Defined.

Lemma scenario_finite : finite_quantities scenario_cart.
Proof. repeat constructor; by eexists. Defined.

Lemma scenario_nonneg : nonneg_prices scenario_cart.
Proof. repeat constructor. Defined.

Lemma scenario_within : quantities_within 1 (2 ^ 53 - 1) (items scenario_cart).
Proof.
  repeat constructor.
  - exists 2. split; [reflexivity|lia].
  - exists 1. split; [reflexivity|lia].
Defined.

Lemma scenario_safe : safe_total scenario_cart.
Proof.
  split; [|by vm_compute].
  repeat constructor; simpl; by eexists.
Defined.

(** The end-to-end scenario of the specification. *)
Example scenario_end_to_end :
  let s := exec (addItem apple)
             (exec (addItem bread) (exec (addItem apple) initial)) in
  s = scenario_cart
  /\ eval getTotalPrice s = int 25
  /\ eval (getItemCount "a") s = int 2.
Proof. by vm_compute. Qed.

(** Decimal prices: 0.1 + 0.2 + 0.3 in this order totals
    0.6000000000000001, and 0.6 in the opposite order. *)
Example getTotalPrice_on_decimals :
  eval getTotalPrice decimal_cart = dyadic 5404319552844596 (-53)
  /\ eval getTotalPrice {| items := rev (items decimal_cart) |}
     = dyadic 5404319552844595 (-53).
Proof. by vm_compute. Qed.

(** Why the round trip of [addItem] and [removeItem] is stated for
    quantities from 1 to 2^53 - 1: an entry of quantity 0 is raised to
    1 by [addItem] and then taken out by [removeItem], and an entry of
    quantity 2^53 is left at 2^53 by [addItem] and then lowered. *)
Example removeItem_after_addItem_outside_range :
  exec (removeItem "a") (exec (addItem apple) zero_quantity_cart) = initial
  /\ items (exec (removeItem "a") (exec (addItem apple) limit_cart))
     = [ {| product := apple; quantity := int (2 ^ 53 - 1) |} ].
Proof. by vm_compute. Qed.

(** Why the sign of the total is stated for finite quantities: 0 times
    infinity is NaN, which is not at least 0. *)
Example getTotalPrice_on_infinite_quantity :
  positive_quantities endless_cart /\ nonneg_prices endless_cart
  /\ eval getTotalPrice endless_cart = NaN
  /\ js_le (int 0) NaN = false.
Proof. split; [|split; [|by vm_compute]]; repeat constructor. Qed.

(** Why the lower bound on what [removeItem] leaves is stated for
    integer quantities: one and a half apples become half an apple. *)
Example removeItem_on_fraction :
  is_double (dyadic 3 (-1)) = true
  /\ items (exec (removeItem "a") half_cart)
     = [ {| product := apple; quantity := dyadic 1 (-1) |} ]
  /\ js_le (int 1) (dyadic 1 (-1)) = false.
Proof. by vm_compute. Qed.


Lemma getTotalPrice_sum_witness :
  safe_total scenario_cart
  /\ eval getTotalPrice scenario_cart
     = int (sum_over_entries (items scenario_cart)).
Proof.
  split; [exact scenario_safe|].
  exact (proj2 (proj2 (getTotalPrice_sum scenario_cart)) scenario_safe).
Defined.

Lemma removeItem_decrements_witness :
  unique_ids scenario_cart
  /\ eval (getItemCount "b") scenario_cart = int 1
  /\ items (exec (removeItem "b") scenario_cart)
     = [ {| product := apple; quantity := int 2 |} ]
  /\ eval (getItemCount "b") (exec (removeItem "b") scenario_cart) = int 0.
Proof.
  assert (Hn : 1 <= 2 ^ 53) by lia.
  pose proof (removeItem_decrements scenario_cart "b"
                [ {| product := apple; quantity := int 2 |} ]
                {| product := bread; quantity := int 1 |} [] 1
                scenario_unique eq_refl eq_refl eq_refl Hn)
    as (Hcount & _ & Hone).
  destruct (Hone eq_refl) as [Hitems Hzero].
  split; [exact scenario_unique|]. split; [exact Hcount|].
  split; [exact Hitems | exact Hzero].
Defined.

Lemma reachable_invariant_witness :
  reachable (exec (addItem apple)
               (exec (addItem bread) (exec (addItem apple) initial)))
  /\ cart_invariant
       (exec (addItem apple)
          (exec (addItem bread) (exec (addItem apple) initial))).
Proof.
  assert (Hreach : reachable
            (exec (addItem apple)
               (exec (addItem bread) (exec (addItem apple) initial))))
    by (do 3 apply reach_addItem; apply reach_initial).
  split; [exact Hreach|]. exact (reachable_invariant _ Hreach).
Defined.

Lemma removeItem_absent_noop_witness :
  find (has_id "c") (items scenario_cart) = None
  /\ items (exec (removeItem "c") scenario_cart) = items scenario_cart.
Proof.
  split; [reflexivity|].
  apply (removeItem_absent_noop scenario_cart "c").
  apply find_absent. reflexivity.
Defined.

Lemma addItem_keeps_stored_product_witness :
  find (has_id (_id apple_repriced)) (items scenario_cart)
  = Some {| product := apple; quantity := int 2 |}
  /\ map product (items (exec (addItem apple_repriced) scenario_cart))
     = map product (items scenario_cart).
Proof.
  split; [reflexivity|].
  exact (proj1 (addItem_keeps_stored_product
                  scenario_cart apple_repriced _ eq_refl)).
Defined.

Lemma POST_rejects_missing_signature_or_secret_witness :
  Webhook.secret world_without_secret = None
  /\ exists message,
       Webhook.response world_without_secret
       = Some {| Webhook.json := [("error", message)];
                 Webhook.status := 400 |}.
Proof.
  split; [reflexivity|].
  apply (proj1 (POST_rejects_missing_signature_or_secret
                  world_without_secret)).
  right. reflexivity.
Defined.

Lemma POST_returns_undefined_witness :
  Webhook.signature world_signed = Some "t=1,v1=00"
  /\ Webhook.secret world_signed = Some "whsec_test"
  /\ Webhook.response world_signed = None.
Proof.
  split; [by vm_compute|]. split; [by vm_compute|].
  apply (POST_returns_undefined world_signed "t=1,v1=00" "whsec_test");
    by vm_compute.
Defined.

Lemma getItemCount_zero_iff_absent_witness :
  positive_quantities scenario_cart
  /\ (eval (getItemCount "c") scenario_cart = int 0
      <-> forall item, item ∈ items scenario_cart ->
                       _id (product item) <> "c").
Proof.
  split; [exact scenario_positive|].
  exact (proj1 (getItemCount_zero_iff_absent scenario_cart "c"
                  scenario_positive)).
Defined.

Lemma addItem_frame_witness :
  "b" <> _id apple
  /\ eval (getItemCount "b") (exec (addItem apple) scenario_cart)
     = eval (getItemCount "b") scenario_cart.
Proof.
  assert (Hne : "b" <> _id apple) by discriminate.
  split; [exact Hne|].
  exact (proj2 (addItem_frame scenario_cart apple) "b" Hne).
Defined.

Lemma removeItem_frame_witness :
  "a" <> "b"
  /\ eval (getItemCount "a") (exec (removeItem "b") scenario_cart)
     = eval (getItemCount "a") scenario_cart.
Proof.
  assert (Hne : "a" <> "b") by discriminate.
  split; [exact Hne|].
  exact (proj2 (removeItem_frame scenario_cart "b") "a" Hne).
Defined.

Lemma removeItem_after_addItem_witness :
  quantities_within 1 (2 ^ 53 - 1) (items scenario_cart)
  /\ exec (removeItem (_id apple_repriced))
          (exec (addItem apple_repriced) scenario_cart)
     = scenario_cart.
Proof.
  split; [exact scenario_within|].
  exact (removeItem_after_addItem scenario_cart apple_repriced
           scenario_within).
Defined.

Lemma getTotalPrice_addItem_witness :
  unique_ids scenario_cart
  /\ safe_total scenario_cart
  /\ safe_total (exec (addItem apple_repriced) scenario_cart)
  /\ eval getTotalPrice (exec (addItem apple_repriced) scenario_cart)
     = int (to_Z (eval getTotalPrice scenario_cart)
            + exact_price apple).
Proof.
  assert (Hafter : safe_total (exec (addItem apple_repriced) scenario_cart)).
  { assert (exec (addItem apple_repriced) scenario_cart
            = {| items :=
                   [ {| product := apple; quantity := int 3 |};
                     {| product := bread; quantity := int 1 |} ] |}) as ->
      by (by vm_compute).
    split; [|by vm_compute]. repeat constructor; simpl; by eexists. }
  assert (Hn : - 2 ^ 53 <= 2 < 2 ^ 53) by lia.
  split; [exact scenario_unique|]. split; [exact scenario_safe|].
  split; [exact Hafter|].
  exact (getTotalPrice_addItem scenario_cart apple_repriced 2
           scenario_unique scenario_safe Hafter eq_refl Hn).
Defined.

Lemma getTotalPrice_removeItem_witness :
  unique_ids scenario_cart
  /\ safe_total scenario_cart
  /\ find (has_id "a") (items scenario_cart)
     = Some {| product := apple; quantity := int 2 |}
  /\ eval getTotalPrice (exec (removeItem "a") scenario_cart)
     = int (to_Z (eval getTotalPrice scenario_cart) - exact_price apple).
Proof.
  assert (Hn : 1 <= 2 <= 2 ^ 53) by lia.
  split; [exact scenario_unique|]. split; [exact scenario_safe|].
  split; [reflexivity|].
  exact (getTotalPrice_removeItem scenario_cart "a"
           {| product := apple; quantity := int 2 |} 2
           scenario_unique scenario_safe eq_refl eq_refl Hn).
Defined.

Lemma removeItem_repeated_witness :
  unique_ids scenario_cart
  /\ eval (getItemCount "a") scenario_cart = int 2
  /\ eval (getItemCount "a")
          (Nat.iter 3 (exec (removeItem "a")) scenario_cart)
     = int (Z.max 0 (2 - Z.of_nat 3)).
Proof.
  assert (Hq : 2 <= 2 ^ 53) by lia.
  split; [exact scenario_unique|]. split; [reflexivity|].
  exact (removeItem_repeated scenario_cart "a" 2 2 scenario_unique
           eq_refl Hq).
Defined.


Lemma removeItem_leaves_no_empty_entry_witness :
  {| product := apple; quantity := int 1 |}
    ∈ items (exec (removeItem "a") scenario_cart)
  /\ js_le (int 1) (quantity {| product := apple; quantity := int 1 |})
     = true.
Proof.
  assert (Hin : {| product := apple; quantity := int 1 |}
                  ∈ items (exec (removeItem "a") scenario_cart))
    by (vm_compute; left).
  assert (Hint : Forall (fun x => exists n, quantity x = int n
                                            /\ n <= 2 ^ 53)
                        (items scenario_cart)).
  { repeat constructor.
    - exists 2. split; [reflexivity|lia].
    - exists 1. split; [reflexivity|lia]. }
  split; [exact Hin|].
  exact (removeItem_leaves_no_empty_entry scenario_cart "a" _ Hint
           Hin eq_refl).
Defined.

Lemma getTotalPrice_nonneg_witness :
  positive_quantities scenario_cart /\ finite_quantities scenario_cart
  /\ nonneg_prices scenario_cart
  /\ js_le (int 0) (eval getTotalPrice scenario_cart) = true.
Proof.
  split; [exact scenario_positive|]. split; [exact scenario_finite|].
  split; [exact scenario_nonneg|].
  exact (getTotalPrice_nonneg scenario_cart scenario_positive
           scenario_finite scenario_nonneg).
Defined.

Lemma getTotalPrice_order_independent_witness :
  safe_total scenario_cart
  /\ items scenario_cart ≡ₚ items {| items := rev scenario_items |}
  /\ eval getTotalPrice scenario_cart
     = eval getTotalPrice {| items := rev scenario_items |}.
Proof.
  assert (Hperm : items scenario_cart
                  ≡ₚ items {| items := rev scenario_items |})
    by apply Permutation_swap.
  split; [exact scenario_safe|]. split; [exact Hperm|].
  exact (getTotalPrice_order_independent scenario_cart
           {| items := rev scenario_items |} scenario_safe Hperm).
Defined.

Lemma addItem_commutes_witness :
  _id apple <> _id bread
  /\ items (exec (addItem bread) (exec (addItem apple) initial))
     ≡ₚ items (exec (addItem apple) (exec (addItem bread) initial)).
Proof.
  assert (Hne : _id apple <> _id bread) by discriminate.
  split; [exact Hne|].
  exact (proj1 (addItem_commutes initial apple bread Hne)).
Defined.

Lemma basket_reachable_invariant_witness :
  basket_reachable
    (exec (BasketStore.addItem apple)
       (exec (BasketStore.addItem bread) BasketStore.initial))
  /\ basket_invariant
       (exec (BasketStore.addItem apple)
          (exec (BasketStore.addItem bread) BasketStore.initial)).
Proof.
  assert (Hreach : basket_reachable
            (exec (BasketStore.addItem apple)
               (exec (BasketStore.addItem bread) BasketStore.initial)))
    by (do 2 apply breach_addItem; apply breach_initial).
  split; [exact Hreach|]. exact (basket_reachable_invariant _ Hreach).
Defined.

Lemma POST_responses_are_errors_witness :
  Webhook.response world_without_secret
  = Some {| Webhook.json := [("error", "Stripe webhook secret is not set")];
            Webhook.status := 400 |}
  /\ Webhook.status
       {| Webhook.json := [("error", "Stripe webhook secret is not set")];
          Webhook.status := 400 |} = 400.
Proof.
  assert (Hresp : Webhook.response world_without_secret
                  = Some {| Webhook.json :=
                              [("error", "Stripe webhook secret is not set")];
                            Webhook.status := 400 |})
    by (by vm_compute).
  split; [exact Hresp|].
  exact (proj1 (POST_responses_are_errors world_without_secret _ Hresp)).
Defined.

Lemma EasterSaleBanner_null_iff_witness :
  easter_only "EASTER" = sample_sales "EASTER"
  /\ sample_banner easter_only = sample_banner sample_sales.
Proof.
  split; [reflexivity|].
  apply (proj2 (proj2 (EasterSaleBanner_null_iff sale_isActive _ _ _ _
                         sample_sales))).
  reflexivity.
Defined.

Lemma EasterSaleBanner_content_witness :
  sample_sales "EASTER" = Some easter_sale
  /\ sale_isActive easter_sale = Some true
  /\ exists n,
       sample_banner sample_sales = SaleBanner.Jsx n
       /\ SaleBanner.exprs n
          = [ StringValue "Easter sale"; StringValue "Spring offers";
              StringValue "EASTER"; NumberValue 20 ]
       /\ SaleBanner.texts n = [ "Use code "; "for "; "% OFF" ].
Proof.
  split; [reflexivity|]. split; [reflexivity|].
  exact (EasterSaleBanner_content sale_isActive _ _ _ _ sample_sales
           easter_sale eq_refl eq_refl).
Defined.
End Samples.
